(** * WifiDevice: the access-point reconciliation engine of src/wifi-device.ts

    A shallow embedding of [NM80211ApSecurityFlags] and of the event
    handlers of [WifiDevice], followed by the properties of the
    specification that were settled against them. *)

From Stdlib Require Import ZArith Lia Ascii String.
From stdpp Require Import base option list strings gmap pretty.

Local Open Scope string_scope.
Local Open Scope list_scope.
Local Open Scope Z_scope.

(** ** JavaScript numbers used by the file

    A number of the program is an IEEE double. The model tracks two kinds
    of double exactly: NaN, and the integers of magnitude at most 2^53
    (each of them is a double, and a sum or a parse that stays within this
    range is exact); the sign of zero is not tracked. Where the program
    may hold another double (a sum or a parse beyond 2^53, which the
    program rounds) the model has [JOther]: it stands for a double that
    the model does not determine, and nothing is concluded from it. *)

Inductive jsnum : Type :=
| JNaN
| JInt (z : Z)
| JOther.

#[global] Instance jsnum_eq_dec : EqDecision jsnum.
Proof. solve_decision. Defined.

(** The integers every one of which is a double. *)
Definition isExactInteger (z : Z) : bool := (- 2 ^ 53 <=? z) && (z <=? 2 ^ 53).

(** [x + y] on numbers: NaN when an operand is NaN, the exact sum when
    operands and sum are exact integers, not determined otherwise. *)
Definition js_add (x y : jsnum) : jsnum :=
  match x, y with
  | JNaN, _ => JNaN
  | _, JNaN => JNaN
  | JInt a, JInt b =>
      if isExactInteger a && isExactInteger b && isExactInteger (a + b)
      then JInt (a + b) else JOther
  | _, _ => JOther
  end.

(** ToInt32: the conversion [|] applies to both operands. *)
Definition to_int32 (z : Z) : Z := (z + 2 ^ 31) mod 2 ^ 32 - 2 ^ 31.

(** [x | y]. *)
Definition js_or (x y : Z) : Z := Z.lor (to_int32 x) (to_int32 y).

(** ** class NM80211ApSecurityFlags *)

Module NM80211ApSecurityFlags.

Definition NM_802_11_AP_SEC_NONE : Z := 0x00000000.
Definition NM_802_11_AP_SEC_PAIR_WEP40 : Z := 0x00000001.
Definition NM_802_11_AP_SEC_PAIR_WEP104 : Z := 0x00000002.
Definition NM_802_11_AP_SEC_PAIR_TKIP : Z := 0x00000004.
Definition NM_802_11_AP_SEC_PAIR_CCMP : Z := 0x00000008.
Definition NM_802_11_AP_SEC_GROUP_WEP40 : Z := 0x00000010.
Definition NM_802_11_AP_SEC_GROUP_WEP104 : Z := 0x00000020.
Definition NM_802_11_AP_SEC_GROUP_TKIP : Z := 0x00000040.
Definition NM_802_11_AP_SEC_GROUP_CCMP : Z := 0x00000080.
Definition NM_802_11_AP_SEC_KEY_MGMT_PSK : Z := 0x00000100.
Definition NM_802_11_AP_SEC_KEY_MGMT_802_1X : Z := 0x00000200.
Definition NM_802_11_AP_SEC_KEY_MGMT_SAE : Z := 0x00000400.
Definition NM_802_11_AP_SEC_KEY_MGMT_OWE : Z := 0x00000800.
Definition NM_802_11_AP_SEC_KEY_MGMT_OWE_TM : Z := 0x00001000.
Definition NM_802_11_AP_SEC_KEY_MGMT_EAP_SUITE_B_192 : Z := 0x00002000.

Definition pairToFlags (str : string) : Z :=
  if String.eqb str "wep40" then NM_802_11_AP_SEC_PAIR_WEP40
  else if String.eqb str "wep104" then NM_802_11_AP_SEC_PAIR_WEP104
  else if String.eqb str "tkip" then NM_802_11_AP_SEC_PAIR_TKIP
  else if String.eqb str "ccmp" then NM_802_11_AP_SEC_PAIR_CCMP
  else NM_802_11_AP_SEC_NONE.

Definition groupToFlags (str : string) : Z :=
  if String.eqb str "wep40" then NM_802_11_AP_SEC_GROUP_WEP40
  else if String.eqb str "wep104" then NM_802_11_AP_SEC_GROUP_WEP104
  else if String.eqb str "tkip" then NM_802_11_AP_SEC_GROUP_TKIP
  else if String.eqb str "ccmp" then NM_802_11_AP_SEC_GROUP_CCMP
  else NM_802_11_AP_SEC_NONE.

Definition keyMgmtToFlags (str : string) : Z :=
  if String.eqb str "wpa-psk" then NM_802_11_AP_SEC_KEY_MGMT_PSK
  else if String.eqb str "wpa-eap" then NM_802_11_AP_SEC_KEY_MGMT_802_1X
  else if String.eqb str "sae" then NM_802_11_AP_SEC_KEY_MGMT_SAE
  else if String.eqb str "owe" then NM_802_11_AP_SEC_KEY_MGMT_OWE
  else if String.eqb str "owe-tm" then NM_802_11_AP_SEC_KEY_MGMT_OWE_TM
  else if String.eqb str "wpa-eap-suite-b-192"
       then NM_802_11_AP_SEC_KEY_MGMT_EAP_SUITE_B_192
  else NM_802_11_AP_SEC_NONE.

(** The security dictionary [{ [key: string]: any }] as far as
    [securityFromDict] reads it: each of the three keys is either absent
    or holds a variant (always truthy) whose [value] is the token list,
    respectively the single token. *)
Record SecurityDict : Type := {
  KeyMgmt : option (list string);
  Pairwise : option (list string);
  Group : option string;
}.

(** [items.forEach(item => { flags |= f(item); })] *)
Definition orEach (f : string -> Z) (items : list string) (flags : Z) : Z :=
  foldl (fun acc item => js_or acc (f item)) flags items.

Definition securityFromDict (security : SecurityDict) : Z :=
  let flags := NM_802_11_AP_SEC_NONE in
  let flags :=
    match KeyMgmt security with
    | Some keyMgmtItems => orEach keyMgmtToFlags keyMgmtItems flags
    | None => flags
    end in
  let flags :=
    match Pairwise security with
    | Some pairwiseItems => orEach pairToFlags pairwiseItems flags
    | None => flags
    end in
  let flags :=
    match Group security with
    | Some groupItem => js_or flags (groupToFlags groupItem)
    | None => flags
    end in
  flags.

(** The tokens some [switch] of the decoder has a [case] for. *)
Definition recognized (t : string) : bool :=
  bool_decide (t ∈ ["wep40"; "wep104"; "tkip"; "ccmp"; "wpa-psk"; "wpa-eap";
                    "sae"; "owe"; "owe-tm"; "wpa-eap-suite-b-192"]).

(** Every value the decoder can hold: a 14-bit mask. *)
Definition is_mask (z : Z) : Prop := 0 <= z < 2 ^ 14.

End NM80211ApSecurityFlags.

(** ** Helpers imported from ./util and ./dbus-types *)

Module Util.

Definition hexDigit (n : Z) : ascii :=
  match n with
  | 0 => "0" | 1 => "1" | 2 => "2" | 3 => "3" | 4 => "4" | 5 => "5"
  | 6 => "6" | 7 => "7" | 8 => "8" | 9 => "9" | 10 => "A" | 11 => "B"
  | 12 => "C" | 13 => "D" | 14 => "E" | _ => "F"
  end%char.

Definition hexByte (b : Z) : string :=
  String (hexDigit (Z.land (Z.shiftr b 4) 15))
         (String (hexDigit (Z.land b 15)) EmptyString).

(** Modelled from the spec: [formatMacAddress] of ./util is not part of
    the sources; it turns the raw BSSID byte array into the canonical
    colon-separated hex string ("AA:BB:CC:DD:EE:FF"). *)
Fixpoint formatMacAddress (bytes : list Z) : string :=
  match bytes with
  | [] => ""
  | [b] => hexByte b
  | b :: rest => hexByte b +:+ ":" +:+ formatMacAddress rest
  end.

(** Modelled from the spec: [byteArrayToString] of ./util is not part of
    the sources; it decodes the raw SSID byte sequence to text. *)
Definition byteArrayToString (bytes : list Z) : string :=
  string_of_list_ascii (map (fun b => ascii_of_N (Z.to_N (b mod 256))) bytes).

End Util.

(** ** parseInt and String.prototype.split(' ')[0]

    A string of the model holds a text as the bytes of its UTF-8 encoding,
    the form in which [readFile(_, 'utf8')] finds it in the file. The
    characters that [split(' ')] and [parseInt] look for (the space, the
    signs, the digits, the radix prefix) are single bytes, and those bytes
    occur in no longer sequence; the white space that [parseInt] skips is
    read off the encoding. *)

Module JsString.

(** [data.split(' ')[0]]: everything before the first space. *)
Fixpoint firstField (data : string) : string :=
  match data with
  | EmptyString => EmptyString
  | String c rest =>
      if Ascii.eqb c " " then EmptyString else String c (firstField rest)
  end.

(** The white space and line terminators of the language, by code point:
    U+0009 to U+000D, U+0020, U+00A0, U+1680, U+2000 to U+200A, U+2028,
    U+2029, U+202F, U+205F, U+3000 and U+FEFF. *)
Definition isWhiteSpace (codePoint : N) : bool :=
  (((9 <=? codePoint) && (codePoint <=? 13))
   || (codePoint =? 32) || (codePoint =? 160) || (codePoint =? 5760)
   || ((8192 <=? codePoint) && (codePoint <=? 8202))
   || (codePoint =? 8232) || (codePoint =? 8233) || (codePoint =? 8239)
   || (codePoint =? 8287) || (codePoint =? 12288) || (codePoint =? 65279))%N.

Definition isContinuation (b : N) : bool := ((128 <=? b) && (b <=? 191))%N.

(** The code point that one byte encodes, if it encodes one. *)
Definition codePoint1 (a : N) : option N :=
  if (a <? 128)%N then Some a else None.

(** The code point that a well-formed sequence of two bytes encodes. *)
Definition codePoint2 (a b : N) : option N :=
  if ((194 <=? a) && (a <=? 223))%N && isContinuation b
  then Some ((a - 192) * 64 + (b - 128))%N
  else None.

(** The code point that a well-formed sequence of three bytes encodes: in
    its shortest form, and no surrogate. *)
Definition codePoint3 (a b c : N) : option N :=
  let codePoint := ((a - 224) * 4096 + (b - 128) * 64 + (c - 128))%N in
  if ((224 <=? a) && (a <=? 239))%N && isContinuation b && isContinuation c
     && (2048 <=? codePoint)%N
     && negb ((55296 <=? codePoint) && (codePoint <=? 57343))%N
  then Some codePoint
  else None.

Definition skipped (codePoint : option N) : bool :=
  match codePoint with
  | Some c => isWhiteSpace c
  | None => false
  end.

(** The text without its leading white space. Trimming stops at the first
    character that is not white space; an ill-formed sequence (which is
    read as U+FFFD) and a character outside the basic plane are not. *)
Fixpoint trimStart (s : string) : string :=
  match s with
  | EmptyString => s
  | String a rest1 =>
      if skipped (codePoint1 (N_of_ascii a)) then trimStart rest1
      else
        match rest1 with
        | EmptyString => s
        | String b rest2 =>
            if skipped (codePoint2 (N_of_ascii a) (N_of_ascii b))
            then trimStart rest2
            else
              match rest2 with
              | EmptyString => s
              | String c rest3 =>
                  if skipped (codePoint3 (N_of_ascii a) (N_of_ascii b)
                                (N_of_ascii c))
                  then trimStart rest3
                  else s
              end
        end
  end.

(** The value of [c] as a digit of the given radix, if it is one. *)
Definition digitValue (radix : Z) (c : ascii) : option Z :=
  let n := Z.of_nat (nat_of_ascii c) in
  let v :=
    if (48 <=? n) && (n <=? 57) then Some (n - 48)
    else if (97 <=? n) && (n <=? 122) then Some (n - 87)
    else if (65 <=? n) && (n <=? 90) then Some (n - 55)
    else None in
  match v with
  | Some d => if d <? radix then Some d else None
  | None => None
  end.

(** Longest prefix of digits, accumulated; [None] when there is none. *)
Fixpoint digits (radix : Z) (s : string) (acc : option Z) : option Z :=
  match s with
  | EmptyString => acc
  | String c rest =>
      match digitValue radix c with
      | Some d => digits radix rest (Some (default 0 acc * radix + d))
      | None => acc
      end
  end.

(** The sign [parseInt] reads, and the rest. *)
Definition signOf (s : string) : Z * string :=
  match s with
  | String c rest =>
      if Ascii.eqb c "-" then (-1, rest)
      else if Ascii.eqb c "+" then (1, rest)
      else (1, s)
  | EmptyString => (1, s)
  end.

(** The radix [parseInt] takes when it is given none, and the rest: 16
    after "0x" or "0X", 10 otherwise. *)
Definition radixOf (s : string) : Z * string :=
  match s with
  | String c rest =>
      if Ascii.eqb c "0" then
        match rest with
        | String x rest' =>
            if Ascii.eqb x "x" || Ascii.eqb x "X" then (16, rest') else (10, s)
        | EmptyString => (10, s)
        end
      else (10, s)
  | EmptyString => (10, s)
  end.

(** [parseInt(s)] with no radix argument: NaN without a digit, the exact
    integer of the digits when it is a double, not determined when the
    program rounds it. *)
Definition parseInt (input : string) : jsnum :=
  let '(sign, s) := signOf (trimStart input) in
  let '(radix, s) := radixOf s in
  match digits radix s None with
  | Some n => if isExactInteger n then JInt (sign * n) else JOther
  | None => JNaN
  end.

End JsString.

(** ** Data of the device *)

(** How an awaited call or a handler completes: normally, or by throwing. *)
Inductive result (A : Type) : Type :=
| Ok (a : A)
| Throw (error : string).
Arguments Ok {A} a.
Arguments Throw {A} error.

(** Reading a property of [undefined]. *)
Definition TypeError (property : string) : string :=
  "TypeError: Cannot read properties of undefined (reading '" +:+ property +:+ "')".

(** Modelled from the spec: [RawAccessPointProperties] of ./dbus-types is
    not part of the sources; the property bag of an access point as the
    primary source returns it, the SSID still a byte sequence. Each field
    stands for a variant object and holds its [value]. *)
Record RawAccessPointProperties : Type := {
  raw_Flags : Z;
  raw_WpaFlags : Z;
  raw_RsnFlags : Z;
  raw_Ssid : list Z;
  raw_Frequency : Z;
  raw_HwAddress : string;
  raw_Mode : Z;
  raw_MaxBitrate : Z;
  raw_Strength : Z;
  raw_LastSeen : jsnum;
}.

(** Modelled from the spec: [AccessPointProperties] of ./dbus-types is not
    part of the sources; the same bag with the SSID decoded to text. *)
Record AccessPointProperties : Type := {
  Flags : Z;
  WpaFlags : Z;
  RsnFlags : Z;
  Ssid : string;
  Frequency : Z;
  HwAddress : string;
  Mode : Z;
  MaxBitrate : Z;
  Strength : Z;
  LastSeen : jsnum;
}.

#[global] Instance AccessPointProperties_eq_dec : EqDecision AccessPointProperties.
Proof. solve_decision. Defined.

(** [{...raw, Ssid: {...raw.Ssid, value: byteArrayToString(raw.Ssid.value)}}] *)
Definition decodeSsid (raw : RawAccessPointProperties) : AccessPointProperties :=
  {| Flags := raw_Flags raw; WpaFlags := raw_WpaFlags raw;
     RsnFlags := raw_RsnFlags raw;
     Ssid := Util.byteArrayToString (raw_Ssid raw);
     Frequency := raw_Frequency raw; HwAddress := raw_HwAddress raw;
     Mode := raw_Mode raw; MaxBitrate := raw_MaxBitrate raw;
     Strength := raw_Strength raw; LastSeen := raw_LastSeen raw |}.

(** [props.LastSeen.value = v] and its three siblings. *)
Definition set_LastSeen (v : jsnum) (p : AccessPointProperties) :=
  {| Flags := Flags p; WpaFlags := WpaFlags p; RsnFlags := RsnFlags p;
     Ssid := Ssid p; Frequency := Frequency p; HwAddress := HwAddress p;
     Mode := Mode p; MaxBitrate := MaxBitrate p; Strength := Strength p;
     LastSeen := v |}.

Definition set_Frequency (v : Z) (p : AccessPointProperties) :=
  {| Flags := Flags p; WpaFlags := WpaFlags p; RsnFlags := RsnFlags p;
     Ssid := Ssid p; Frequency := v; HwAddress := HwAddress p;
     Mode := Mode p; MaxBitrate := MaxBitrate p; Strength := Strength p;
     LastSeen := LastSeen p |}.

Definition set_WpaFlags (v : Z) (p : AccessPointProperties) :=
  {| Flags := Flags p; WpaFlags := v; RsnFlags := RsnFlags p;
     Ssid := Ssid p; Frequency := Frequency p; HwAddress := HwAddress p;
     Mode := Mode p; MaxBitrate := MaxBitrate p; Strength := Strength p;
     LastSeen := LastSeen p |}.

Definition set_RsnFlags (v : Z) (p : AccessPointProperties) :=
  {| Flags := Flags p; WpaFlags := WpaFlags p; RsnFlags := v;
     Ssid := Ssid p; Frequency := Frequency p; HwAddress := HwAddress p;
     Mode := Mode p; MaxBitrate := MaxBitrate p; Strength := Strength p;
     LastSeen := LastSeen p |}.

(** The part of [Partial<WpaSupplicantProperties>] the PropertiesChanged
    handler reads from [params[0]]; an absent key is [None]. *)
Record BssChanges : Type := {
  Age : option Z;
  NewFrequency : option Z;
  WPA : option NM80211ApSecurityFlags.SecurityDict;
  RSN : option NM80211ApSecurityFlags.SecurityDict;
}.

(** A proxy interface, identified by the object path it is bound to. *)
Definition ClientInterface : Type := string.

(** Modelled from the spec: [listenSignal] of ./base-device is not part of
    the sources; it establishes a property-change subscription and returns
    a handle whose [unsubscribe()] cancels it. A listener records the
    interface it listens on, the [bssid] its callback closed over, and
    whether it is still live. *)
Record Listener : Type := {
  on_interface : ClientInterface;
  closure_bssid : string;
  live : bool;
}.

(** An [AccessPointMap] object: path to reference of the record object. *)
Abbreviation AccessPointMap := (gmap string nat).

(** The device, with the objects its fields refer to. References are
    indices: a record object is shared by every map object that holds its
    index, a map object by every holder of its index. *)
Record WifiDevice : Type := {
  recordObjects : list AccessPointProperties;
  mapObjects : list AccessPointMap;
  signalListeners : list Listener;
  console : list string;
  _accessPoints : nat;
  (** values given to the BehaviorSubject, latest first: the seed of the
      constructor, then one per [next()] *)
  _accessPointsSubject : list nat;
  _bssListeners : gmap string nat;
  _bssPathMap : gmap string string;
  _accessPointPathMap : gmap string string;
  _bssInterfaces : gmap string ClientInterface;
}.

Definition upd_recordObjects (f : list AccessPointProperties -> list AccessPointProperties) (d : WifiDevice) :=
  Build_WifiDevice (f (recordObjects d)) (mapObjects d) (signalListeners d)
    (console d) (_accessPoints d) (_accessPointsSubject d) (_bssListeners d)
    (_bssPathMap d) (_accessPointPathMap d) (_bssInterfaces d).

Definition upd_mapObjects (f : list AccessPointMap -> list AccessPointMap) (d : WifiDevice) :=
  Build_WifiDevice (recordObjects d) (f (mapObjects d)) (signalListeners d)
    (console d) (_accessPoints d) (_accessPointsSubject d) (_bssListeners d)
    (_bssPathMap d) (_accessPointPathMap d) (_bssInterfaces d).

Definition upd_signalListeners (f : list Listener -> list Listener) (d : WifiDevice) :=
  Build_WifiDevice (recordObjects d) (mapObjects d) (f (signalListeners d))
    (console d) (_accessPoints d) (_accessPointsSubject d) (_bssListeners d)
    (_bssPathMap d) (_accessPointPathMap d) (_bssInterfaces d).

Definition upd_console (f : list string -> list string) (d : WifiDevice) :=
  Build_WifiDevice (recordObjects d) (mapObjects d) (signalListeners d)
    (f (console d)) (_accessPoints d) (_accessPointsSubject d) (_bssListeners d)
    (_bssPathMap d) (_accessPointPathMap d) (_bssInterfaces d).

Definition upd_accessPoints (f : nat -> nat) (d : WifiDevice) :=
  Build_WifiDevice (recordObjects d) (mapObjects d) (signalListeners d)
    (console d) (f (_accessPoints d)) (_accessPointsSubject d) (_bssListeners d)
    (_bssPathMap d) (_accessPointPathMap d) (_bssInterfaces d).

Definition upd_accessPointsSubject (f : list nat -> list nat) (d : WifiDevice) :=
  Build_WifiDevice (recordObjects d) (mapObjects d) (signalListeners d)
    (console d) (_accessPoints d) (f (_accessPointsSubject d)) (_bssListeners d)
    (_bssPathMap d) (_accessPointPathMap d) (_bssInterfaces d).

Definition upd_bssListeners (f : gmap string nat -> gmap string nat) (d : WifiDevice) :=
  Build_WifiDevice (recordObjects d) (mapObjects d) (signalListeners d)
    (console d) (_accessPoints d) (_accessPointsSubject d) (f (_bssListeners d))
    (_bssPathMap d) (_accessPointPathMap d) (_bssInterfaces d).

Definition upd_bssPathMap (f : gmap string string -> gmap string string) (d : WifiDevice) :=
  Build_WifiDevice (recordObjects d) (mapObjects d) (signalListeners d)
    (console d) (_accessPoints d) (_accessPointsSubject d) (_bssListeners d)
    (f (_bssPathMap d)) (_accessPointPathMap d) (_bssInterfaces d).

Definition upd_accessPointPathMap (f : gmap string string -> gmap string string) (d : WifiDevice) :=
  Build_WifiDevice (recordObjects d) (mapObjects d) (signalListeners d)
    (console d) (_accessPoints d) (_accessPointsSubject d) (_bssListeners d)
    (_bssPathMap d) (f (_accessPointPathMap d)) (_bssInterfaces d).

Definition upd_bssInterfaces (f : gmap string ClientInterface -> gmap string ClientInterface) (d : WifiDevice) :=
  Build_WifiDevice (recordObjects d) (mapObjects d) (signalListeners d)
    (console d) (_accessPoints d) (_accessPointsSubject d) (_bssListeners d)
    (_bssPathMap d) (_accessPointPathMap d) (f (_bssInterfaces d)).

(** ** Handlers as state-passing computations that may throw

    A handler body runs on the device and completes normally or by
    throwing; what it did to the device before throwing stays done. The
    results of the calls it awaits (proxy creation, property fetch, file
    read) are given to it as arguments, and the body runs in one piece:
    other handlers running at an [await] are outside the model. *)

Definition Async (A : Type) : Type := WifiDevice -> result A * WifiDevice.

Definition ret {A} (a : A) : Async A := fun d => (Ok a, d).

Definition throw {A} (error : string) : Async A := fun d => (Throw error, d).

Definition bind {A B} (m : Async A) (k : A -> Async B) : Async B :=
  fun d =>
    match m d with
    | (Ok a, d') => k a d'
    | (Throw error, d') => (Throw error, d')
    end.

Notation "x <- m ;; k" := (bind m (fun x => k))
  (at level 100, m at next level, right associativity).
Notation "m ;; k" := (bind m (fun _ => k))
  (at level 100, right associativity).

Definition this : Async WifiDevice := fun d => (Ok d, d).

Definition modify (f : WifiDevice -> WifiDevice) : Async unit :=
  fun d => (Ok tt, f d).

(** [console.error(msg)] *)
Definition console_error (msg : string) : Async unit :=
  modify (upd_console (fun c => (c ++ [msg])%list)).

(** The map object [this._accessPoints] refers to. *)
Definition accessPointsOf (d : WifiDevice) : AccessPointMap :=
  default ∅ (mapObjects d !! _accessPoints d).

(** A new record object; its reference. *)
Definition newRecord (p : AccessPointProperties) : Async nat :=
  fun d => (Ok (length (recordObjects d)), upd_recordObjects (fun h => (h ++ [p])%list) d).

(** A new map object; its reference. *)
Definition newMap (m : AccessPointMap) : Async nat :=
  fun d => (Ok (length (mapObjects d)), upd_mapObjects (fun h => (h ++ [m])%list) d).

(** [this._accessPointsSubject.next(v)] *)
Definition subject_next (v : nat) : Async unit :=
  modify (upd_accessPointsSubject (fun vs => v :: vs)).

(** [listenSignal(iface, 'PropertiesChanged', callback)] where [callback]
    closed over [bssid]; the handle of the new subscription. *)
Definition listenSignal (iface : ClientInterface) (bssid : string) : Async nat :=
  fun d =>
    (Ok (length (signalListeners d)),
     upd_signalListeners
       (fun ls => (ls ++ [{| on_interface := iface; closure_bssid := bssid;
                              live := true |}])%list) d).

(** [listenerRef.unsubscribe()] *)
Definition unsubscribe (listenerRef : nat) : Async unit :=
  modify (upd_signalListeners
            (alter (fun l => {| on_interface := on_interface l;
                                closure_bssid := closure_bssid l;
                                live := false |}) listenerRef)).

(** [_getUptime], given how [fs.readFile('/proc/uptime', 'utf8')] completes. *)
Definition _getUptime (readFile : result string) : Async jsnum :=
  match readFile with
  | Ok data =>
      let uptimeSeconds := JsString.parseInt (JsString.firstField data) in
      ret uptimeSeconds
  | Throw error =>
      console_error ("Error reading uptime: " +:+ error) ;;
      throw error
  end.

(** Evaluating [props.<property>] where [props] may be [undefined]. *)
Definition member (props : option nat) (property : string) : Async nat :=
  match props with
  | Some r => ret r
  | None => throw (TypeError property)
  end.

(** Assigning to a field of the record object [r], in place. *)
Definition assign (r : nat) (f : AccessPointProperties -> AccessPointProperties) : Async unit :=
  modify (upd_recordObjects (alter f r)).

(** The callback [_listenForBssPropertyChanges(bssid)] registers. In
    [props.LastSeen.value = (await this._getUptime()) + ...] the target
    [props.LastSeen] is evaluated before the right-hand side. *)
Definition onBssPropertiesChanged (bssid : string) (params : BssChanges)
    (readFile : result string) : Async unit :=
  d <- this ;;
  match _bssPathMap d !! bssid with
  | None => console_error ("bssPath not found for " +:+ bssid)
  | Some bssPath =>
      match _accessPointPathMap d !! bssid with
      | None => console_error ("apPath not found for " +:+ bssid)
      | Some apPath =>
          let props := accessPointsOf d !! apPath in
          match Age params with
          | Some age =>
              r <- member props "LastSeen" ;;
              uptime <- _getUptime readFile ;;
              assign r (set_LastSeen (js_add uptime (JInt age)))
          | None => ret tt
          end ;;
          match NewFrequency params with
          | Some frequency =>
              r <- member props "Frequency" ;;
              assign r (set_Frequency frequency)
          | None => ret tt
          end ;;
          match WPA params with
          | Some wpa =>
              r <- member props "WpaFlags" ;;
              assign r (set_WpaFlags (NM80211ApSecurityFlags.securityFromDict wpa))
          | None => ret tt
          end ;;
          match RSN params with
          | Some rsn =>
              r <- member props "RsnFlags" ;;
              assign r (set_RsnFlags (NM80211ApSecurityFlags.securityFromDict rsn))
          | None => ret tt
          end
      end
  end.

Definition _listenForBssPropertyChanges (bssid : string) : Async unit :=
  d <- this ;;
  match _bssInterfaces d !! bssid with
  | None => ret tt
  | Some bssInterface =>
      listenerRef <- listenSignal bssInterface bssid ;;
      modify (upd_bssListeners <[bssid := listenerRef]>)
  end.

(** The BSSAdded handler of [_listenForBss]; [proxy] is how
    [getProxyObject] and [getInterface] complete. *)
Definition onBSSAdded (bssPath : string) (BSSID : list Z)
    (proxy : result ClientInterface) : Async unit :=
  let bssid := Util.formatMacAddress BSSID in
  match proxy with
  | Ok bssInterface =>
      modify (upd_bssInterfaces <[bssid := bssInterface]>) ;;
      modify (upd_bssPathMap <[bssid := bssPath]>) ;;
      modify (upd_bssPathMap <[bssPath := bssid]>) ;;
      _listenForBssPropertyChanges bssid
  | Throw error =>
      console_error ("BSSAdded signal handler ERROR: " +:+ error)
  end.

(** The BSSRemoved handler of [_listenForBss]. *)
Definition onBSSRemoved (bssPath : string) : Async unit :=
  d <- this ;;
  let bssid := _bssPathMap d !! bssPath in
  modify (upd_bssPathMap (delete bssPath)) ;;
  match bssid with
  | Some bssid => modify (upd_bssPathMap (delete bssid))
  | None => ret tt
  end ;;
  d <- this ;;
  let listenerRef := _bssListeners d !! bssPath in
  match listenerRef with
  | Some listenerRef =>
      unsubscribe listenerRef ;;
      modify (upd_bssListeners (delete bssPath))
  | None => ret tt
  end.

(** The AccessPointAdded handler of [_listenForAccessPoints]; [fetched] is
    how [objectInterface] and [getAllProperties] complete. *)
Definition onAccessPointAdded (apPath : string)
    (fetched : result RawAccessPointProperties) : Async unit :=
  match fetched with
  | Ok rawAccessPointProperties =>
      accessPointProperties <- newRecord (decodeSsid rawAccessPointProperties) ;;
      let bssid := raw_HwAddress rawAccessPointProperties in
      modify (upd_accessPointPathMap <[bssid := apPath]>) ;;
      modify (upd_accessPointPathMap <[apPath := bssid]>) ;;
      d <- this ;;
      spread <- newMap (<[apPath := accessPointProperties]> (accessPointsOf d)) ;;
      modify (upd_accessPoints (fun _ => spread)) ;;
      d <- this ;;
      subject_next (_accessPoints d)
  | Throw error =>
      console_error ("ERROR: " +:+ error)
  end.

(** The AccessPointRemoved handler of [_listenForAccessPoints]. *)
Definition onAccessPointRemoved (apPath : string) : Async unit :=
  d <- this ;;
  filteredAccessPoints <- newMap (delete apPath (accessPointsOf d)) ;;
  let bssid := _accessPointPathMap d !! apPath in
  modify (upd_accessPointPathMap (delete apPath)) ;;
  match bssid with
  | Some bssid => modify (upd_accessPointPathMap (delete bssid))
  | None => ret tt
  end ;;
  modify (upd_accessPoints (fun _ => filteredAccessPoints)) ;;
  d <- this ;;
  subject_next (_accessPoints d).

(** ** Constructor and [init] *)

Fixpoint forEach {A} (items : list A) (body : A -> Async unit) : Async unit :=
  match items with
  | [] => ret tt
  | item :: rest => body item ;; forEach rest body
  end.

(** The loop that ends [_listenForBss]: one subscription per interface
    known at construction. The keys come in the order of [map_to_list]
    (the source iterates in insertion order; only the numbering of the
    handles depends on it). *)
Definition _listenForBss : Async unit :=
  d <- this ;;
  forEach (map_to_list (_bssInterfaces d)).*1 _listenForBssPropertyChanges.

(** [new WifiDevice(...)]: [objects] are the record objects the initial
    map refers to. *)
Definition new_WifiDevice (objects : list AccessPointProperties)
    (initialAccessPoints : AccessPointMap)
    (initialBssPathMap initialAccessPointPathMap : gmap string string)
    (initialBssInterfaces : gmap string ClientInterface) : WifiDevice :=
  let d :=
    {| recordObjects := objects;
       mapObjects := [initialAccessPoints];
       signalListeners := [];
       console := [];
       _accessPoints := 0%nat;
       _accessPointsSubject := [0%nat];
       _bssListeners := ∅;
       _bssPathMap := initialBssPathMap;
       _accessPointPathMap := initialAccessPointPathMap;
       _bssInterfaces := initialBssInterfaces |} in
  (_listenForBss d).2.

(** What [init] awaits from the bus, as given completions. *)
Record Bus : Type := {
  (** [BaseDevice._init]: [wifiDeviceProperties.AccessPoints.value] *)
  base_init : result (list string);
  (** the supplicant interface object of interface 0 *)
  wpa_interface : result unit;
  (** [getProperty(wpaInterface, 'BSSs')] *)
  wpa_BSSs : result (list string);
  (** [getProxyObject] and [getInterface] for a BSS path *)
  bss_interface : string -> result ClientInterface;
  (** [getProperty(bssInterface, 'BSSID')] *)
  bss_BSSID : ClientInterface -> result (list Z);
  (** [objectInterface] and [getAllProperties] for an access-point path *)
  ap_properties : string -> result RawAccessPointProperties;
}.

(** The locals of [init] the two loops fill. *)
Record Bootstrap : Type := {
  initialObjects : list AccessPointProperties;
  initialAccessPoints : AccessPointMap;
  initialBssPathMap : gmap string string;
  initialAccessPointPathMap : gmap string string;
  initialBssInterfaces : gmap string ClientInterface;
}.

Definition and_then {A B} (r : result A) (k : A -> result B) : result B :=
  match r with
  | Ok a => k a
  | Throw error => Throw error
  end.

Fixpoint getBSSs (bus : Bus) (bss : list string) (b : Bootstrap) : result Bootstrap :=
  match bss with
  | [] => Ok b
  | bssPath :: rest =>
      and_then (bss_interface bus bssPath) (fun bssInterface =>
      and_then (bss_BSSID bus bssInterface) (fun bssidArray =>
        let bssid := Util.formatMacAddress bssidArray in
        getBSSs bus rest
          {| initialObjects := initialObjects b;
             initialAccessPoints := initialAccessPoints b;
             initialBssPathMap :=
               <[bssPath := bssid]> (<[bssid := bssPath]> (initialBssPathMap b));
             initialAccessPointPathMap := initialAccessPointPathMap b;
             initialBssInterfaces :=
               <[bssid := bssInterface]> (initialBssInterfaces b) |}))
  end.

Fixpoint getAccessPointDataFromPaths (bus : Bus) (accessPoints : list string)
    (b : Bootstrap) : result Bootstrap :=
  match accessPoints with
  | [] => Ok b
  | accessPointPath :: rest =>
      and_then (ap_properties bus accessPointPath) (fun raw =>
        let accessPointProperties := decodeSsid raw in
        let bssid := HwAddress accessPointProperties in
        getAccessPointDataFromPaths bus rest
          {| initialObjects := (initialObjects b ++ [accessPointProperties])%list;
             initialAccessPoints :=
               <[accessPointPath := length (initialObjects b)]> (initialAccessPoints b);
             initialBssPathMap := initialBssPathMap b;
             initialAccessPointPathMap :=
               <[accessPointPath := bssid]>
                 (<[bssid := accessPointPath]> (initialAccessPointPathMap b));
             initialBssInterfaces := initialBssInterfaces b |})
  end.

Definition emptyBootstrap : Bootstrap :=
  {| initialObjects := []; initialAccessPoints := ∅; initialBssPathMap := ∅;
     initialAccessPointPathMap := ∅; initialBssInterfaces := ∅ |}.

(** The [try] block of [init]. *)
Definition init_try (bus : Bus) : result WifiDevice :=
  and_then (base_init bus) (fun accessPoints =>
  and_then (wpa_interface bus) (fun _ =>
  and_then (wpa_BSSs bus) (fun bss =>
  and_then (getBSSs bus bss emptyBootstrap) (fun b =>
  and_then (getAccessPointDataFromPaths bus accessPoints b) (fun b =>
    Ok (new_WifiDevice (initialObjects b) (initialAccessPoints b)
          (initialBssPathMap b) (initialAccessPointPathMap b)
          (initialBssInterfaces b))))))).

Definition init (bus : Bus) : result WifiDevice :=
  match init_try bus with
  | Ok device => Ok device
  | Throw error => Throw ("Error creating wifi device: " +:+ error)
  end.

(** ** Events and what an observer sees *)

Inductive Event : Type :=
| AccessPointAdded (apPath : string) (fetched : result RawAccessPointProperties)
| AccessPointRemoved (apPath : string)
| BSSAdded (bssPath : string) (BSSID : list Z) (proxy : result ClientInterface)
| BSSRemoved (bssPath : string)
| PropertiesChanged (listenerRef : nat) (params : BssChanges)
    (readFile : result string).

(** Delivery of one signal; a property change reaches the callback of a
    subscription only while that subscription is live. *)
Definition deliver (ev : Event) : Async unit :=
  match ev with
  | AccessPointAdded apPath fetched => onAccessPointAdded apPath fetched
  | AccessPointRemoved apPath => onAccessPointRemoved apPath
  | BSSAdded bssPath BSSID proxy => onBSSAdded bssPath BSSID proxy
  | BSSRemoved bssPath => onBSSRemoved bssPath
  | PropertiesChanged listenerRef params readFile =>
      d <- this ;;
      match signalListeners d !! listenerRef with
      | Some l =>
          if live l then onBssPropertiesChanged (closure_bssid l) params readFile
          else ret tt
      | None => ret tt
      end
  end.

Definition step (d : WifiDevice) (ev : Event) : WifiDevice := (deliver ev d).2.

Definition run (d : WifiDevice) (evs : list Event) : WifiDevice := foldl step d evs.

(** The getter [accessPoints]. *)
Definition accessPoints (d : WifiDevice) : nat := _accessPoints d.

(** The value the BehaviorSubject holds: the most recent emission. *)
Definition latestEmission (d : WifiDevice) : option nat := head (_accessPointsSubject d).

(** What a holder of the map reference [ref] reads through it. *)
Definition snapshotAt (d : WifiDevice) (ref : nat) : gmap string AccessPointProperties :=
  omap (fun r => recordObjects d !! r) (default ∅ (mapObjects d !! ref)).

(** The live subscriptions whose callback closed over [bssid]. *)
Definition liveSubscriptions (d : WifiDevice) (bssid : string) : list Listener :=
  filter (fun l => live l = true ∧ closure_bssid l = bssid) (signalListeners d).

(** The number of emissions a handler caused. *)
Definition emissions (before after : WifiDevice) : Z :=
  Z.of_nat (length (_accessPointsSubject after))
  - Z.of_nat (length (_accessPointsSubject before)).

(** ** The statements that fail on the code, as the specification words them *)

(** Bootstrap is said to survive a failing property fetch: the device is
    still created and holds every access point whose fetch succeeds. *)
Definition bootstrap_skips_failed_fetch (bus : Bus) : Prop :=
  forall accessPoints,
    base_init bus = Ok accessPoints ->
    exists device,
      init bus = Ok device
      /\ forall p raw,
           p ∈ accessPoints -> ap_properties bus p = Ok raw ->
           is_Some (accessPointsOf device !! p).

(** A failing uptime read is said to drop the last-seen update only: the
    error is logged and thrown, and the record [r] the event resolves to
    still receives the Frequency, WPA and RSN values of the event. *)
Definition uptime_failure_keeps_other_updates (d : WifiDevice) (bssid : string)
    (params : BssChanges) (error : string) : Prop :=
  forall apPath r,
    _accessPointPathMap d !! bssid = Some apPath ->
    accessPointsOf d !! apPath = Some r ->
    let '(completion, d') := onBssPropertiesChanged bssid params (Throw error) d in
    completion = Throw error
    /\ console d' = console d ++ ["Error reading uptime: " +:+ error]
    /\ exists p',
         recordObjects d' !! r = Some p'
         /\ (forall f, NewFrequency params = Some f -> Frequency p' = f)
         /\ (forall wpa, WPA params = Some wpa ->
               WpaFlags p' = NM80211ApSecurityFlags.securityFromDict wpa)
         /\ (forall rsn, RSN params = Some rsn ->
               RsnFlags p' = NM80211ApSecurityFlags.securityFromDict rsn).

(** AccessPointRemoved(p) is said to delete, from the index, both
    directions of p's own pair and nothing else: an entry that is neither
    p's (p to its identity) nor the identity's entry for p stays. *)
Definition removal_keeps_other_entries (d : WifiDevice) (apPath : string) : Prop :=
  forall k v,
    _accessPointPathMap d !! k = Some v ->
    k <> apPath ->
    ~ (_accessPointPathMap d !! apPath = Some k /\ v = apPath) ->
    _accessPointPathMap (onAccessPointRemoved apPath d).2 !! k = Some v.

(** ** Concrete inputs *)

Module Scenario.

(** The BSSID bytes of AA:BB:CC:DD:EE:FF. *)
Definition bssidBytes : list Z := [170; 187; 204; 221; 238; 255].

Definition home : RawAccessPointProperties :=
  {| raw_Flags := 1; raw_WpaFlags := 0; raw_RsnFlags := 392;
     raw_Ssid := [72; 111; 109; 101]; raw_Frequency := 2412;
     raw_HwAddress := "AA:BB:CC:DD:EE:FF"; raw_Mode := 2;
     raw_MaxBitrate := 54000; raw_Strength := 70; raw_LastSeen := JInt 90 |}.

(** The same path announced by the primary source under another address. *)
Definition moved : RawAccessPointProperties :=
  {| raw_Flags := 1; raw_WpaFlags := 0; raw_RsnFlags := 392;
     raw_Ssid := [72; 111; 109; 101]; raw_Frequency := 2412;
     raw_HwAddress := "11:22:33:44:55:66"; raw_Mode := 2;
     raw_MaxBitrate := 54000; raw_Strength := 70; raw_LastSeen := JInt 95 |}.

(** One BSS at /bss/1 and one access point at /ap/1, the same radio. *)
Definition bus : Bus :=
  {| base_init := Ok ["/ap/1"];
     wpa_interface := Ok tt;
     wpa_BSSs := Ok ["/bss/1"];
     bss_interface := fun bssPath => Ok bssPath;
     bss_BSSID := fun _ => Ok bssidBytes;
     ap_properties := fun apPath =>
       if String.eqb apPath "/ap/1" then Ok home
       else Throw "DBusError: No such object path" |}.

(** As [bus], with an access point /ap/0 listed first whose properties
    cannot be fetched. *)
Definition busWithFailure : Bus :=
  {| base_init := Ok ["/ap/0"; "/ap/1"];
     wpa_interface := wpa_interface bus;
     wpa_BSSs := wpa_BSSs bus;
     bss_interface := bss_interface bus;
     bss_BSSID := bss_BSSID bus;
     ap_properties := ap_properties bus |}.

(** The device [init bus] creates. *)
Definition device : WifiDevice :=
  new_WifiDevice [decodeSsid home] {["/ap/1" := 0%nat]}
    {["/bss/1" := "AA:BB:CC:DD:EE:FF"; "AA:BB:CC:DD:EE:FF" := "/bss/1"]}
    {["/ap/1" := "AA:BB:CC:DD:EE:FF"; "AA:BB:CC:DD:EE:FF" := "/ap/1"]}
    {["AA:BB:CC:DD:EE:FF" := "/bss/1"]}.

(** A device with nothing known yet. *)
Definition blank : WifiDevice := new_WifiDevice [] ∅ ∅ ∅ ∅.

Definition noChanges : BssChanges :=
  {| Age := None; NewFrequency := None; WPA := None; RSN := None |}.

Definition ageOnly : BssChanges :=
  {| Age := Some 5; NewFrequency := None; WPA := None; RSN := None |}.

Definition frequencyOnly : BssChanges :=
  {| Age := None; NewFrequency := Some 5180; WPA := None; RSN := None |}.

Definition ageAndFrequency : BssChanges :=
  {| Age := Some 5; NewFrequency := Some 5180; WPA := None; RSN := None |}.

(** /ap/1 is announced again under another address, then removed: the
    entry for the first address stays behind in the index. *)
Definition desynchronized : WifiDevice :=
  run device [AccessPointAdded "/ap/1" (Ok moved); AccessPointRemoved "/ap/1"].

(** Two access points, /ap/1 and then /ap/2, announced with the same
    hardware address: the address is indexed to /ap/2. *)
Definition sharedAddress : WifiDevice :=
  run blank [AccessPointAdded "/ap/1" (Ok home); AccessPointAdded "/ap/2" (Ok home)].

End Scenario.

(** ** Invariants of the device *)

(** The getter and the stream agree: the reference the getter returns is
    the one most recently given to the subject. *)
Definition published (d : WifiDevice) : Prop :=
  latestEmission d = Some (accessPoints d).

(** What a handler that only patches records or manages subscriptions
    leaves alone: which map object is current, what was emitted, and the
    map objects themselves. *)
Definition same_publication (d d' : WifiDevice) : Prop :=
  _accessPoints d' = _accessPoints d
  /\ _accessPointsSubject d' = _accessPointsSubject d
  /\ mapObjects d' = mapObjects d.

(** What subscription management leaves alone: the publication and the
    record objects. *)
Definition same_registry (d d' : WifiDevice) : Prop :=
  same_publication d d' /\ recordObjects d' = recordObjects d.

(** During phase 2 of [init]: every path of the initial map refers to the
    record object made from the properties fetched for that path. *)
Definition bootstrap_consistent (bus : Bus) (b : Bootstrap) : Prop :=
  forall q r,
    initialAccessPoints b !! q = Some r ->
    exists raw,
      ap_properties bus q = Ok raw
      /\ initialObjects b !! r = Some (decodeSsid raw).

(** A computation keeps a relation between the device before and after,
    however it completes. *)
Definition preserves {A} (R : WifiDevice -> WifiDevice -> Prop) (m : Async A) : Prop :=
  forall d, R d (m d).2.

(** ** The request-style operations *)

(** [requestScan], given how the RequestScan call completes. *)
Definition requestScan (called : result unit) : result unit :=
  match called with
  | Ok _ => Ok tt
  | Throw err => Throw ("Error requesting scan: " +:+ err)
  end.

(** [activateConnection], given how [objectInterface] and the
    ActivateConnection call complete. *)
Definition activateConnection (networkManagerInterface : result unit)
    (called : result string) : result string :=
  match and_then networkManagerInterface (fun _ => called) with
  | Ok activeConnectionPath => Ok activeConnectionPath
  | Throw err => Throw err
  end.

(** ** Notions the further properties are stated with *)

(** The record a property change makes of [p] when the uptime read is
    [uptime]: the fields the event names are replaced, the others kept. *)
Definition patched (params : BssChanges) (uptime : jsnum)
    (p : AccessPointProperties) : AccessPointProperties :=
  {| Flags := Flags p;
     WpaFlags :=
       from_option NM80211ApSecurityFlags.securityFromDict (WpaFlags p) (WPA params);
     RsnFlags :=
       from_option NM80211ApSecurityFlags.securityFromDict (RsnFlags p) (RSN params);
     Ssid := Ssid p;
     Frequency := default (Frequency p) (NewFrequency params);
     HwAddress := HwAddress p;
     Mode := Mode p;
     MaxBitrate := MaxBitrate p;
     Strength := Strength p;
     LastSeen :=
       from_option (fun age => js_add uptime (JInt age)) (LastSeen p) (Age params) |}.

(** The fields no property change writes. *)
Definition same_identity (p p' : AccessPointProperties) : Prop :=
  HwAddress p' = HwAddress p /\ Ssid p' = Ssid p /\ Flags p' = Flags p
  /\ Mode p' = Mode p /\ MaxBitrate p' = MaxBitrate p /\ Strength p' = Strength p.

(** What a property change can do to the device at most: write the four
    patched fields of record objects that exist, and log. *)
Definition patch_frame (d d' : WifiDevice) : Prop :=
  same_publication d d'
  /\ length (recordObjects d') = length (recordObjects d)
  /\ (forall r p p',
        recordObjects d !! r = Some p -> recordObjects d' !! r = Some p' ->
        same_identity p p')
  /\ signalListeners d' = signalListeners d
  /\ _bssListeners d' = _bssListeners d
  /\ _bssPathMap d' = _bssPathMap d
  /\ _accessPointPathMap d' = _accessPointPathMap d
  /\ _bssInterfaces d' = _bssInterfaces d.

(** What the BSS handlers leave alone: the registry and the access-point
    side of the index. *)
Definition bss_frame (d d' : WifiDevice) : Prop :=
  same_registry d d' /\ _accessPointPathMap d' = _accessPointPathMap d.

(** No dangling reference: the current map object exists, and every map
    object refers to record objects that exist. *)
Definition well_formed (d : WifiDevice) : Prop :=
  (_accessPoints d < length (mapObjects d))%nat
  /\ forall m q r,
       m ∈ mapObjects d -> m !! q = Some r ->
       (r < length (recordObjects d))%nat.

(** D-Bus object paths begin with a slash; hardware identities do not. *)
Definition startsWithSlash (s : string) : bool :=
  match s with
  | String "/" _ => true
  | _ => false
  end.

(** The events after which the handler calls [next]. *)
Definition emits (ev : Event) : bool :=
  match ev with
  | AccessPointAdded _ (Ok _) => true
  | AccessPointRemoved _ => true
  | _ => false
  end.

Definition isPropertiesChanged (ev : Event) : bool :=
  match ev with
  | PropertiesChanged _ _ _ => true
  | _ => false
  end.

(** Events whose paths are object paths and whose identities are not. *)
Definition separates (ev : Event) : Prop :=
  match ev with
  | AccessPointAdded apPath (Ok raw) =>
      startsWithSlash apPath = true /\ startsWithSlash (raw_HwAddress raw) = false
  | AccessPointAdded apPath (Throw _) => True
  | AccessPointRemoved apPath => startsWithSlash apPath = true
  | BSSAdded bssPath BSSID _ =>
      startsWithSlash bssPath = true
      /\ startsWithSlash (Util.formatMacAddress BSSID) = false
  | BSSRemoved bssPath => startsWithSlash bssPath = true
  | PropertiesChanged _ _ _ => True
  end.

(** The path-to-identity direction of the access-point index agrees with
    the registry: every record of the snapshot is indexed, under its path,
    by its own hardware address. *)
Definition index_agrees (d : WifiDevice) : Prop :=
  forall q p,
    snapshotAt d (accessPoints d) !! q = Some p ->
    _accessPointPathMap d !! q = Some (HwAddress p).

(** The registry is keyed by object paths, and the index sends no object
    path to an object path. *)
Definition paths_apart (d : WifiDevice) : Prop :=
  (forall q, is_Some (accessPointsOf d !! q) -> startsWithSlash q = true)
  /\ forall k v,
       _accessPointPathMap d !! k = Some v -> startsWithSlash k = true ->
       startsWithSlash v = false.

(** Subscription handles are recorded under hardware identities only. *)
Definition handles_by_identity (d : WifiDevice) : Prop :=
  forall k, is_Some (_bssListeners d !! k) -> startsWithSlash k = false.

(** During phase 2 of [init]: no dangling reference, registry keys are
    object paths, and the index agrees with the registry so far. *)
Definition bootstrap_indexed (b : Bootstrap) : Prop :=
  (forall q r,
     initialAccessPoints b !! q = Some r ->
     (r < length (initialObjects b))%nat /\ startsWithSlash q = true)
  /\ (forall q r p,
        initialAccessPoints b !! q = Some r -> initialObjects b !! r = Some p ->
        initialAccessPointPathMap b !! q = Some (HwAddress p))
  /\ (forall k v,
        initialAccessPointPathMap b !! k = Some v -> startsWithSlash k = true ->
        startsWithSlash v = false).

(** * Properties *)

(** ** The security-flag decoder *)

Section Decoder.

Import NM80211ApSecurityFlags.

Lemma to_int32_small (z : Z) : - 2 ^ 31 <= z < 2 ^ 31 -> to_int32 z = z.
Proof. intros Hz. unfold to_int32. rewrite Z.mod_small; lia. Qed.

Lemma js_or_mask (x y : Z) : is_mask x -> is_mask y -> js_or x y = Z.lor x y.
Proof.
  unfold is_mask, js_or. intros Hx Hy.
  rewrite !to_int32_small; [reflexivity | lia | lia].
Qed.

Lemma lor_mask (x y : Z) : is_mask x -> is_mask y -> is_mask (Z.lor x y).
Proof.
  unfold is_mask. intros [Hx0 Hx] [Hy0 Hy]. split.
  - apply Z.lor_nonneg. lia.
  - destruct (Z.eq_dec (Z.lor x y) 0) as [-> | Hne]; [lia |].
    assert (0 < Z.lor x y) as Hpos.
    { assert (0 <= Z.lor x y) by (apply Z.lor_nonneg; lia). lia. }
    apply Z.log2_lt_pow2; [exact Hpos |].
    rewrite Z.log2_lor by lia.
    apply Z.max_lub_lt.
    + destruct (Z.eq_dec x 0) as [-> | ?]; [simpl; lia |].
      apply Z.log2_lt_pow2; lia.
    + destruct (Z.eq_dec y 0) as [-> | ?]; [simpl; lia |].
      apply Z.log2_lt_pow2; lia.
Qed.

Lemma js_or_zero (x : Z) : is_mask x -> js_or x 0 = x.
Proof.
  intros Hx. rewrite js_or_mask; [apply Z.lor_0_r | exact Hx |].
  unfold is_mask. lia.
Qed.

Lemma keyMgmtToFlags_mask (s : string) : is_mask (keyMgmtToFlags s).
Proof.
  unfold keyMgmtToFlags, is_mask.
  repeat (case (String.eqb s _)); vm_compute; split; congruence.
Qed.

Lemma pairToFlags_mask (s : string) : is_mask (pairToFlags s).
Proof.
  unfold pairToFlags, is_mask.
  repeat (case (String.eqb s _)); vm_compute; split; congruence.
Qed.

Lemma groupToFlags_mask (s : string) : is_mask (groupToFlags s).
Proof.
  unfold groupToFlags, is_mask.
  repeat (case (String.eqb s _)); vm_compute; split; congruence.
Qed.

Lemma orEach_mask (f : string -> Z) (items : list string) (flags : Z) :
  (forall s, is_mask (f s)) -> is_mask flags -> is_mask (orEach f items flags).
Proof.
  intros Hf. revert flags. unfold orEach.
  induction items as [| item items IH]; intros flags Hflags; simpl.
  - exact Hflags.
  - apply IH. rewrite js_or_mask by auto. apply lor_mask; auto.
Qed.

Lemma orEach_app (f : string -> Z) (l1 l2 : list string) (flags : Z) :
  orEach f (l1 ++ l2) flags = orEach f l2 (orEach f l1 flags).
Proof. unfold orEach. apply foldl_app. Qed.

Lemma orEach_cons (f : string -> Z) (item : string) (items : list string) (flags : Z) :
  orEach f (item :: items) flags = orEach f items (js_or flags (f item)).
Proof. reflexivity. Qed.

(** A token the switch of [f] sends to its default adds nothing, wherever
    it stands in the list. *)
Lemma orEach_skip (f : string -> Z) (t : string) (l1 l2 : list string) (flags : Z) :
  (forall s, is_mask (f s)) -> is_mask flags -> f t = 0 ->
  orEach f (l1 ++ t :: l2) flags = orEach f (l1 ++ l2) flags.
Proof.
  intros Hf Hflags Ht. rewrite !orEach_app, orEach_cons, Ht.
  rewrite js_or_zero; [reflexivity |]. apply orEach_mask; assumption.
Qed.

Lemma unrecognized_eqb (t s : string) :
  recognized t = false -> recognized s = true -> String.eqb t s = false.
Proof.
  intros Ht Hs. apply String.eqb_neq. intros ->. congruence.
Qed.

Lemma unrecognized_keyMgmt (t : string) : recognized t = false -> keyMgmtToFlags t = 0.
Proof.
  intros Ht. unfold keyMgmtToFlags.
  rewrite !(unrecognized_eqb t) by (exact Ht || reflexivity). reflexivity.
Qed.

Lemma unrecognized_pair (t : string) : recognized t = false -> pairToFlags t = 0.
Proof.
  intros Ht. unfold pairToFlags.
  rewrite !(unrecognized_eqb t) by (exact Ht || reflexivity). reflexivity.
Qed.

Lemma unrecognized_group (t : string) : recognized t = false -> groupToFlags t = 0.
Proof.
  intros Ht. unfold groupToFlags.
  rewrite !(unrecognized_eqb t) by (exact Ht || reflexivity). reflexivity.
Qed.

Lemma zero_mask : is_mask NM_802_11_AP_SEC_NONE.
Proof. unfold is_mask, NM_802_11_AP_SEC_NONE. lia. Qed.

(** C5: decoding {KeyMgmt: ["wpa-psk"], Pairwise: ["ccmp"], Group: "ccmp"}
    gives exactly PSK | PAIR_CCMP | GROUP_CCMP, that is 0x100 | 0x8 | 0x80,
    and decoding the empty dictionary gives 0. *)
Theorem securityFromDict_psk_ccmp :
  securityFromDict {| KeyMgmt := Some ["wpa-psk"]; Pairwise := Some ["ccmp"];
                      Group := Some "ccmp" |}
  = Z.lor (Z.lor NM_802_11_AP_SEC_KEY_MGMT_PSK NM_802_11_AP_SEC_PAIR_CCMP)
          NM_802_11_AP_SEC_GROUP_CCMP
  /\ Z.lor (Z.lor NM_802_11_AP_SEC_KEY_MGMT_PSK NM_802_11_AP_SEC_PAIR_CCMP)
           NM_802_11_AP_SEC_GROUP_CCMP
     = Z.lor (Z.lor 0x100 0x8) 0x80
  /\ securityFromDict {| KeyMgmt := None; Pairwise := None; Group := None |} = 0.
Proof. repeat split; vm_compute; reflexivity. Qed.

(** C6: a token outside the recognized vocabulary contributes nothing:
    adding it anywhere in the KeyMgmt or the Pairwise list (also to an
    absent list), or setting it as the Group token, gives the mask of the
    dictionary without it; decoding never fails (the decoder is total). *)
Theorem unrecognized_token_ignored (t : string)
    (keyMgmt pairwise : option (list string)) (group : option string)
    (l1 l2 : list string) :
  recognized t = false ->
  securityFromDict {| KeyMgmt := Some (l1 ++ t :: l2); Pairwise := pairwise; Group := group |}
  = securityFromDict {| KeyMgmt := Some (l1 ++ l2); Pairwise := pairwise; Group := group |}
  /\ securityFromDict {| KeyMgmt := Some [t]; Pairwise := pairwise; Group := group |}
     = securityFromDict {| KeyMgmt := None; Pairwise := pairwise; Group := group |}
  /\ securityFromDict {| KeyMgmt := keyMgmt; Pairwise := Some (l1 ++ t :: l2); Group := group |}
     = securityFromDict {| KeyMgmt := keyMgmt; Pairwise := Some (l1 ++ l2); Group := group |}
  /\ securityFromDict {| KeyMgmt := keyMgmt; Pairwise := Some [t]; Group := group |}
     = securityFromDict {| KeyMgmt := keyMgmt; Pairwise := None; Group := group |}
  /\ securityFromDict {| KeyMgmt := keyMgmt; Pairwise := pairwise; Group := Some t |}
     = securityFromDict {| KeyMgmt := keyMgmt; Pairwise := pairwise; Group := None |}.
Proof.
  intros Ht.
  assert (forall km, is_mask (match km with
                              | Some items => orEach keyMgmtToFlags items NM_802_11_AP_SEC_NONE
                              | None => NM_802_11_AP_SEC_NONE
                              end)) as Hkm.
  { intros [items |]; [apply orEach_mask |]; auto using keyMgmtToFlags_mask, zero_mask. }
  assert (forall km pw, is_mask (match pw with
                                 | Some items =>
                                     orEach pairToFlags items
                                       (match km with
                                        | Some items => orEach keyMgmtToFlags items NM_802_11_AP_SEC_NONE
                                        | None => NM_802_11_AP_SEC_NONE
                                        end)
                                 | None =>
                                     match km with
                                     | Some items => orEach keyMgmtToFlags items NM_802_11_AP_SEC_NONE
                                     | None => NM_802_11_AP_SEC_NONE
                                     end
                                 end)) as Hpw.
  { intros km [items |]; [apply orEach_mask |]; auto using pairToFlags_mask. }
  unfold securityFromDict; cbn [KeyMgmt Pairwise Group]. repeat split.
  - rewrite (orEach_skip keyMgmtToFlags t l1 l2);
      auto using keyMgmtToFlags_mask, zero_mask, unrecognized_keyMgmt.
  - rewrite orEach_cons, unrecognized_keyMgmt by exact Ht.
    rewrite js_or_zero by apply zero_mask. reflexivity.
  - rewrite (orEach_skip pairToFlags t l1 l2);
      auto using pairToFlags_mask, unrecognized_pair.
  - rewrite orEach_cons, unrecognized_pair by exact Ht.
    rewrite js_or_zero by apply Hkm. reflexivity.
  - rewrite unrecognized_group by exact Ht. apply js_or_zero. apply Hpw.
Qed.

Lemma unrecognized_token_ignored_witness :
  recognized "wpa3-unknown" = false
  /\ securityFromDict {| KeyMgmt := Some (["wpa-psk"] ++ "wpa3-unknown" :: ["sae"]);
                         Pairwise := Some ["ccmp"]; Group := Some "tkip" |}
     = securityFromDict {| KeyMgmt := Some (["wpa-psk"] ++ ["sae"]);
                           Pairwise := Some ["ccmp"]; Group := Some "tkip" |}.
Proof.
  split; [reflexivity |].
  apply (unrecognized_token_ignored "wpa3-unknown" None (Some ["ccmp"])
           (Some "tkip") ["wpa-psk"] ["sae"]).
  reflexivity.
Defined.

End Decoder.

(** ** Reasoning about handler bodies *)

Section Preservation.

Context (R : WifiDevice -> WifiDevice -> Prop).
Context (R_refl : forall d, R d d).
Context (R_trans : forall d1 d2 d3, R d1 d2 -> R d2 d3 -> R d1 d3).

Lemma preserves_ret {A} (a : A) : preserves R (ret a).
Proof. intros d. apply R_refl. Qed.

Lemma preserves_throw {A} (error : string) : preserves R (@throw A error).
Proof. intros d. apply R_refl. Qed.

Lemma preserves_this : preserves R this.
Proof. intros d. apply R_refl. Qed.

Lemma preserves_bind {A B} (m : Async A) (k : A -> Async B) :
  preserves R m -> (forall a, preserves R (k a)) -> preserves R (bind m k).
Proof.
  intros Hm Hk d. unfold bind. specialize (Hm d).
  destruct (m d) as [[a | error] d']; simpl in *.
  - eapply R_trans; [exact Hm | apply Hk].
  - exact Hm.
Qed.

Lemma preserves_modify (f : WifiDevice -> WifiDevice) :
  (forall d, R d (f d)) -> preserves R (modify f).
Proof. intros Hf d. apply Hf. Qed.

Lemma preserves_forEach {A} (items : list A) (body : A -> Async unit) :
  (forall item, preserves R (body item)) -> preserves R (forEach items body).
Proof.
  intros Hbody. induction items as [| item items IH]; simpl.
  - apply preserves_ret.
  - apply preserves_bind; [apply Hbody | intros _; exact IH].
Qed.

End Preservation.

(** ** The device *)

Section Device.

(** Walks a handler body: sequencing, branching on what was read, and
    leaves the primitive updates to [tac]. *)
Ltac preserve tac :=
  repeat first
    [ assumption
    | match goal with |- forall _, _ => intro end
    | simple apply preserves_ret
    | simple apply preserves_throw
    | simple apply preserves_this
    | simple apply preserves_bind
    | simple apply preserves_forEach
    | simple apply preserves_modify
    | progress cbv beta zeta
    | case_match
    | solve [tac] ].

Lemma same_publication_refl (d : WifiDevice) : same_publication d d.
Proof. repeat split. Qed.

Lemma same_publication_trans (d1 d2 d3 : WifiDevice) :
  same_publication d1 d2 -> same_publication d2 d3 -> same_publication d1 d3.
Proof.
  unfold same_publication. intros (-> & -> & ->) (-> & -> & ->). repeat split.
Qed.

Lemma onBssPropertiesChanged_publication bssid params readFile :
  preserves same_publication (onBssPropertiesChanged bssid params readFile).
Proof.
  pose proof same_publication_refl. pose proof same_publication_trans.
  unfold onBssPropertiesChanged, console_error, member, assign, _getUptime.
  preserve ltac:(repeat split).
Qed.

Lemma listenForBssPropertyChanges_publication bssid :
  preserves same_publication (_listenForBssPropertyChanges bssid).
Proof.
  pose proof same_publication_refl. pose proof same_publication_trans.
  unfold _listenForBssPropertyChanges, listenSignal.
  preserve ltac:(repeat split).
Qed.

Lemma onBSSAdded_publication bssPath BSSID proxy :
  preserves same_publication (onBSSAdded bssPath BSSID proxy).
Proof.
  pose proof same_publication_refl. pose proof same_publication_trans.
  unfold onBSSAdded, console_error.
  preserve ltac:(first [apply listenForBssPropertyChanges_publication
                       | repeat split]).
Qed.

Lemma onBSSRemoved_publication bssPath :
  preserves same_publication (onBSSRemoved bssPath).
Proof.
  pose proof same_publication_refl. pose proof same_publication_trans.
  unfold onBSSRemoved, unsubscribe.
  preserve ltac:(repeat split).
Qed.

Lemma listenForBss_publication : preserves same_publication _listenForBss.
Proof.
  pose proof same_publication_refl. pose proof same_publication_trans.
  unfold _listenForBss.
  preserve ltac:(first [apply listenForBssPropertyChanges_publication
                       | repeat split]).
Qed.

Lemma published_same_publication (d d' : WifiDevice) :
  same_publication d d' -> published d -> published d'.
Proof.
  unfold same_publication, published, latestEmission, accessPoints.
  intros (-> & -> & _). auto.
Qed.

Lemma new_WifiDevice_published objects aps bssPaths apPaths interfaces :
  published (new_WifiDevice objects aps bssPaths apPaths interfaces).
Proof.
  unfold new_WifiDevice.
  eapply published_same_publication; [apply listenForBss_publication |].
  reflexivity.
Qed.

Lemma onAccessPointAdded_published apPath fetched d :
  published d -> published (onAccessPointAdded apPath fetched d).2.
Proof.
  destruct fetched as [raw | error]; intros Hd.
  - reflexivity.
  - exact Hd.
Qed.

Lemma onAccessPointRemoved_published apPath d :
  published (onAccessPointRemoved apPath d).2.
Proof.
  unfold onAccessPointRemoved, bind, this, newMap, modify.
  destruct (_accessPointPathMap d !! apPath); reflexivity.
Qed.

Lemma step_published (d : WifiDevice) (ev : Event) :
  published d -> published (step d ev).
Proof.
  intros Hd. unfold step. destruct ev as [apPath fetched | apPath | bssPath BSSID proxy | bssPath | l params readFile]; simpl.
  - apply onAccessPointAdded_published, Hd.
  - apply onAccessPointRemoved_published.
  - eapply published_same_publication; [apply onBSSAdded_publication | exact Hd].
  - eapply published_same_publication; [apply onBSSRemoved_publication | exact Hd].
  - unfold bind, this. destruct (signalListeners d !! l) as [listener |]; [| exact Hd].
    destruct (live listener); [| exact Hd].
    eapply published_same_publication;
      [apply onBssPropertiesChanged_publication | exact Hd].
Qed.

Lemma run_published (evs : list Event) (d : WifiDevice) :
  published d -> published (run d evs).
Proof.
  revert d. induction evs as [| ev evs IH]; intros d Hd; simpl.
  - exact Hd.
  - apply IH, step_published, Hd.
Qed.

(** C10: after construction and after any sequence of events, the getter
    returns the very map the stream emitted last; the two read the same
    snapshot. *)
Theorem getter_agrees_with_stream
    (objects : list AccessPointProperties) (aps : AccessPointMap)
    (bssPaths apPaths : gmap string string)
    (interfaces : gmap string ClientInterface) (evs : list Event) :
  let d := run (new_WifiDevice objects aps bssPaths apPaths interfaces) evs in
  latestEmission d = Some (accessPoints d)
  /\ (snapshotAt d <$> latestEmission d) = Some (snapshotAt d (accessPoints d)).
Proof.
  intros d.
  assert (published d) as Hd by apply run_published, new_WifiDevice_published.
  split; [exact Hd |]. rewrite Hd. reflexivity.
Qed.

(** The same for a device [init] returned. *)
Lemma init_getter_agrees_with_stream (bus : Bus) (device : WifiDevice)
    (evs : list Event) :
  init bus = Ok device ->
  latestEmission (run device evs) = Some (accessPoints (run device evs)).
Proof.
  unfold init, init_try, and_then. intros Hinit.
  apply run_published.
  repeat case_match; try discriminate.
  simplify_eq. apply new_WifiDevice_published.
Qed.

(** *** The scenario *)

(** [init] on the scenario's bus makes the scenario's device: one record at
    /ap/1 with SSID "Home", the index resolving /bss/1, AA:BB:CC:DD:EE:FF
    and /ap/1 in both directions, one live subscription. *)
Lemma init_scenario :
  init Scenario.bus = Ok Scenario.device
  /\ Ssid <$> snapshotAt Scenario.device (accessPoints Scenario.device) !! "/ap/1"
     = Some "Home"
  /\ liveSubscriptions Scenario.device "AA:BB:CC:DD:EE:FF"
     = [{| on_interface := "/bss/1"; closure_bssid := "AA:BB:CC:DD:EE:FF";
           live := true |}].
Proof. repeat split; vm_compute; reflexivity. Qed.

(** *** Subscriptions *)

(** Subscriptions are recorded under the hardware identity. *)
Lemma listenForBssPropertyChanges_records bssid bssInterface d :
  _bssInterfaces d !! bssid = Some bssInterface ->
  let d' := (_listenForBssPropertyChanges bssid d).2 in
  _bssListeners d' !! bssid = Some (length (signalListeners d))
  /\ signalListeners d'
     = signalListeners d
       ++ [{| on_interface := bssInterface; closure_bssid := bssid; live := true |}].
Proof.
  intros Hi. unfold _listenForBssPropertyChanges, bind, this. simpl.
  rewrite Hi. simpl. split; [apply lookup_insert_eq | reflexivity].
Qed.

(** The BSSRemoved handler looks the subscription up under the path: when
    no handle is recorded under that key, every subscription stays as it
    is. *)
Lemma onBSSRemoved_without_handle bssPath d :
  _bssListeners d !! bssPath = None ->
  let d' := (onBSSRemoved bssPath d).2 in
  signalListeners d' = signalListeners d /\ _bssListeners d' = _bssListeners d.
Proof.
  intros Hnone. unfold onBSSRemoved, bind, this, modify, ret. simpl.
  destruct (_bssPathMap d !! bssPath); simpl; rewrite Hnone; split; reflexivity.
Qed.

(** C1: a BSS is added at /bss/1 with identity AA:BB:CC:DD:EE:FF and
    then removed; the remove handler drops the index entries but the
    subscription recorded for the identity is still live, and still
    recorded, when the handler has returned. *)
Theorem bssRemoved_leaves_subscription_live :
  let listener :=
    {| on_interface := "/bss/1"; closure_bssid := "AA:BB:CC:DD:EE:FF";
       live := true |} in
  let added :=
    step Scenario.blank (BSSAdded "/bss/1" Scenario.bssidBytes (Ok "/bss/1")) in
  let removed := step added (BSSRemoved "/bss/1") in
  liveSubscriptions Scenario.blank "AA:BB:CC:DD:EE:FF" = []
  /\ liveSubscriptions added "AA:BB:CC:DD:EE:FF" = [listener]
  /\ _bssListeners added !! "AA:BB:CC:DD:EE:FF" = Some 0%nat
  /\ _bssPathMap removed = ∅
  /\ liveSubscriptions removed "AA:BB:CC:DD:EE:FF" = [listener]
  /\ _bssListeners removed !! "AA:BB:CC:DD:EE:FF" = Some 0%nat.
Proof. repeat split; vm_compute; reflexivity. Qed.

(** *** Emissions *)

Lemma onAccessPointAdded_emits_once apPath raw d :
  let d' := (onAccessPointAdded apPath (Ok raw) d).2 in
  emissions d d' = 1
  /\ accessPoints d' = length (mapObjects d)
  /\ mapObjects d' = mapObjects d ++ [<[apPath := length (recordObjects d)]> (accessPointsOf d)]
  /\ recordObjects d' = recordObjects d ++ [decodeSsid raw].
Proof.
  unfold emissions. simpl. repeat split. lia.
Qed.

Lemma onAccessPointRemoved_emits_once apPath d :
  let d' := (onAccessPointRemoved apPath d).2 in
  emissions d d' = 1
  /\ accessPoints d' = length (mapObjects d)
  /\ mapObjects d' = mapObjects d ++ [delete apPath (accessPointsOf d)]
  /\ recordObjects d' = recordObjects d.
Proof.
  unfold emissions, onAccessPointRemoved, bind, this, newMap, modify.
  destruct (_accessPointPathMap d !! apPath); simpl; repeat split; lia.
Qed.

(** The patch handler never emits and never makes a new map object. *)
Lemma onBssPropertiesChanged_emits_nothing bssid params readFile d :
  let d' := (onBssPropertiesChanged bssid params readFile d).2 in
  emissions d d' = 0 /\ accessPoints d' = accessPoints d
  /\ mapObjects d' = mapObjects d.
Proof.
  destruct (onBssPropertiesChanged_publication bssid params readFile d)
    as (Hap & Hsubject & Hmaps).
  unfold emissions, accessPoints. simpl. rewrite Hap, Hsubject, Hmaps.
  repeat split. lia.
Qed.

(** C2: a property change carrying Frequency 5180 reaches the device that
    holds /ap/1 at 2412 MHz. Nothing is emitted and no map object is
    made: the record changes under the snapshot already published. *)
Theorem patch_mutates_published_snapshot :
  let before := Scenario.device in
  let after :=
    step before (PropertiesChanged 0 Scenario.frequencyOnly (Ok "100.25 17.3")) in
  emissions before after = 0
  /\ latestEmission before = Some 0%nat
  /\ latestEmission after = Some 0%nat
  /\ mapObjects after = mapObjects before
  /\ Frequency <$> snapshotAt before 0 !! "/ap/1" = Some 2412
  /\ Frequency <$> snapshotAt after 0 !! "/ap/1" = Some 5180.
Proof. repeat split; vm_compute; reflexivity. Qed.

(** *** A property change for a path the registry does not hold *)

Lemma onBssPropertiesChanged_absent_path bssid bssPath apPath params readFile d :
  _bssPathMap d !! bssid = Some bssPath ->
  _accessPointPathMap d !! bssid = Some apPath ->
  accessPointsOf d !! apPath = None ->
  onBssPropertiesChanged bssid params readFile d
  = match Age params, NewFrequency params, WPA params, RSN params with
    | Some _, _, _, _ => (Throw (TypeError "LastSeen"), d)
    | None, Some _, _, _ => (Throw (TypeError "Frequency"), d)
    | None, None, Some _, _ => (Throw (TypeError "WpaFlags"), d)
    | None, None, None, Some _ => (Throw (TypeError "RsnFlags"), d)
    | None, None, None, None => (Ok tt, d)
    end.
Proof.
  intros Hbss Hap Hnone. unfold onBssPropertiesChanged, bind, this. simpl.
  rewrite Hbss, Hap, Hnone.
  destruct (Age params), (NewFrequency params), (WPA params), (RSN params);
    reflexivity.
Qed.

(** C4: on the device where AA:BB:CC:DD:EE:FF still resolves to /ap/1 but
    the registry holds no /ap/1, a property change carrying Age makes the
    handler throw a TypeError with nothing logged; one carrying no field
    returns with nothing logged. The device is unchanged both times. *)
Theorem patch_on_absent_path_throws :
  let d := Scenario.desynchronized in
  _bssPathMap d !! "AA:BB:CC:DD:EE:FF" = Some "/bss/1"
  /\ _accessPointPathMap d !! "AA:BB:CC:DD:EE:FF" = Some "/ap/1"
  /\ accessPointsOf d !! "/ap/1" = None
  /\ console d = []
  /\ deliver (PropertiesChanged 0 Scenario.ageOnly (Ok "100.25 17.3")) d
     = (Throw (TypeError "LastSeen"), d)
  /\ deliver (PropertiesChanged 0 Scenario.noChanges (Ok "100.25 17.3")) d
     = (Ok tt, d).
Proof. repeat split; vm_compute; reflexivity. Qed.

(** *** A correlated property change *)

Lemma snapshotAt_current (d : WifiDevice) (apPath : string) :
  snapshotAt d (accessPoints d) !! apPath
  = accessPointsOf d !! apPath ≫= fun r => recordObjects d !! r.
Proof. unfold snapshotAt, accessPoints, accessPointsOf. apply lookup_omap. Qed.

Lemma isExactInteger_spec (z : Z) :
  isExactInteger z = true <-> - 2 ^ 53 <= z <= 2 ^ 53.
Proof.
  unfold isExactInteger. rewrite andb_true_iff, !Z.leb_le. reflexivity.
Qed.

Lemma js_add_exact (a b : Z) :
  - 2 ^ 53 <= a <= 2 ^ 53 -> - 2 ^ 53 <= b <= 2 ^ 53 ->
  - 2 ^ 53 <= a + b <= 2 ^ 53 ->
  js_add (JInt a) (JInt b) = JInt (a + b).
Proof.
  intros Ha Hb Hab. unfold js_add.
  rewrite (proj2 (isExactInteger_spec a) Ha), (proj2 (isExactInteger_spec b) Hb),
    (proj2 (isExactInteger_spec (a + b)) Hab).
  reflexivity.
Qed.

Lemma signOf_sign (s : string) : (JsString.signOf s).1 = 1 \/ (JsString.signOf s).1 = -1.
Proof.
  unfold JsString.signOf. destruct s as [| c rest]; [left; reflexivity |].
  destruct (Ascii.eqb c "-"); [right; reflexivity |].
  destruct (Ascii.eqb c "+"); left; reflexivity.
Qed.

(** An integer [parseInt] returns is one the program holds exactly. *)
Lemma parseInt_exact (input : string) (u : Z) :
  JsString.parseInt input = JInt u -> - 2 ^ 53 <= u <= 2 ^ 53.
Proof.
  unfold JsString.parseInt.
  pose proof (signOf_sign (JsString.trimStart input)) as Hsign.
  destruct (JsString.signOf (JsString.trimStart input)) as [sign s1].
  destruct (JsString.radixOf s1) as [radix s2].
  destruct (JsString.digits radix s2 None) as [n |]; [| discriminate].
  destruct (isExactInteger n) eqn:Hn; [| discriminate].
  apply isExactInteger_spec in Hn. intros [= <-]. cbn in Hsign.
  destruct Hsign as [-> | ->]; lia.
Qed.

(** C7: when the event resolves to a record, carries Age = a, and the
    uptime read at that moment (the integer [_getUptime] parses from the
    first field of the file) is u, the handler returns normally and the
    record's LastSeen is u + a; a Frequency carried in the same event is
    the record's Frequency afterwards (and the Frequency stays as it was
    when the event carries none). Age and the sum are taken within the
    integers a number of the program holds exactly, up to 2^53 in
    magnitude. *)
Theorem lastSeen_is_uptime_plus_age (d : WifiDevice)
    (bssid bssPath apPath data : string) (params : BssChanges)
    (r : nat) (p : AccessPointProperties) (a u : Z) :
  _bssPathMap d !! bssid = Some bssPath ->
  _accessPointPathMap d !! bssid = Some apPath ->
  accessPointsOf d !! apPath = Some r ->
  recordObjects d !! r = Some p ->
  Age params = Some a ->
  JsString.parseInt (JsString.firstField data) = JInt u ->
  - 2 ^ 53 <= a <= 2 ^ 53 ->
  - 2 ^ 53 <= u + a <= 2 ^ 53 ->
  exists d' p',
    onBssPropertiesChanged bssid params (Ok data) d = (Ok tt, d')
    /\ snapshotAt d' (accessPoints d') !! apPath = Some p'
    /\ LastSeen p' = JInt (u + a)
    /\ Frequency p' = default (Frequency p) (NewFrequency params).
Proof.
  intros Hbss Hap Hr Hp Hage Huptime Ha Hsum.
  pose proof (js_add_exact u a (parseInt_exact _ _ Huptime) Ha Hsum) as Hadd.
  unfold onBssPropertiesChanged, bind, this. cbn -[js_add].
  rewrite Hbss, Hap, Hr, Hage. cbn -[js_add]. rewrite Huptime, Hadd.
  destruct (NewFrequency params) as [f |], (WPA params) as [wpa |],
    (RSN params) as [rsn |]; cbn;
    (eexists _, _; split; [reflexivity |]);
    rewrite snapshotAt_current; unfold accessPointsOf; cbn;
    fold (accessPointsOf d); rewrite Hr; cbn;
    rewrite ?list_lookup_alter_eq, Hp; cbn;
    (split; [reflexivity | split; reflexivity]).
Qed.

Lemma lastSeen_is_uptime_plus_age_witness :
  exists d' p',
    onBssPropertiesChanged "AA:BB:CC:DD:EE:FF" Scenario.ageAndFrequency
      (Ok "100.25 17.3") Scenario.device = (Ok tt, d')
    /\ snapshotAt d' (accessPoints d') !! "/ap/1" = Some p'
    /\ LastSeen p' = JInt (100 + 5)
    /\ Frequency p' = 5180.
Proof.
  apply (lastSeen_is_uptime_plus_age Scenario.device "AA:BB:CC:DD:EE:FF"
           "/bss/1" "/ap/1" "100.25 17.3" Scenario.ageAndFrequency 0%nat
           (decodeSsid Scenario.home) 5 100);
    try (vm_compute; reflexivity); vm_compute; split; discriminate.
Defined.

(** *** A failing uptime read *)

Lemma onBssPropertiesChanged_uptime_failure (d : WifiDevice)
    (bssid bssPath apPath error : string) (params : BssChanges) (r : nat) (a : Z) :
  _bssPathMap d !! bssid = Some bssPath ->
  _accessPointPathMap d !! bssid = Some apPath ->
  accessPointsOf d !! apPath = Some r ->
  Age params = Some a ->
  onBssPropertiesChanged bssid params (Throw error) d
  = (Throw error,
     upd_console (fun c => c ++ ["Error reading uptime: " +:+ error]) d).
Proof.
  intros Hbss Hap Hr Hage.
  unfold onBssPropertiesChanged, bind, this. cbn.
  rewrite Hbss, Hap, Hr, Hage. reflexivity.
Qed.

(** C9, as the code has it: when the event resolves to a record and
    carries Age, a failing uptime read is logged and thrown out of the
    handler, and nothing of the event is applied: the records are as
    before, also when the event carries Frequency, WPA or RSN, and
    nothing is emitted. *)
Theorem uptime_failure_drops_event (d : WifiDevice)
    (bssid bssPath apPath error : string) (params : BssChanges) (r : nat) (a : Z) :
  _bssPathMap d !! bssid = Some bssPath ->
  _accessPointPathMap d !! bssid = Some apPath ->
  accessPointsOf d !! apPath = Some r ->
  Age params = Some a ->
  exists d',
    onBssPropertiesChanged bssid params (Throw error) d = (Throw error, d')
    /\ console d' = console d ++ ["Error reading uptime: " +:+ error]
    /\ recordObjects d' = recordObjects d
    /\ snapshotAt d' (accessPoints d') = snapshotAt d (accessPoints d)
    /\ emissions d d' = 0.
Proof.
  intros Hbss Hap Hr Hage. eexists. split.
  - eapply onBssPropertiesChanged_uptime_failure; eassumption.
  - unfold emissions. cbn. repeat split. lia.
Qed.

Lemma uptime_failure_drops_event_witness :
  exists d',
    onBssPropertiesChanged "AA:BB:CC:DD:EE:FF" Scenario.ageAndFrequency
      (Throw "ENOENT") Scenario.device = (Throw "ENOENT", d')
    /\ console d' = console Scenario.device ++ ["Error reading uptime: " +:+ "ENOENT"]
    /\ recordObjects d' = recordObjects Scenario.device
    /\ snapshotAt d' (accessPoints d')
       = snapshotAt Scenario.device (accessPoints Scenario.device)
    /\ emissions Scenario.device d' = 0.
Proof.
  apply (uptime_failure_drops_event Scenario.device "AA:BB:CC:DD:EE:FF"
           "/bss/1" "/ap/1" "ENOENT" Scenario.ageAndFrequency 0%nat 5);
    vm_compute; reflexivity.
Defined.

(** C9, as the specification words it, fails: with the uptime file
    unreadable, an event carrying Age 5 and Frequency 5180 leaves the
    record at 2412 MHz. *)
Lemma uptime_failure_drops_frequency :
  ~ uptime_failure_keeps_other_updates Scenario.device "AA:BB:CC:DD:EE:FF"
      Scenario.ageAndFrequency "ENOENT".
Proof.
  intros Hclaim.
  specialize (Hclaim "/ap/1" 0%nat ltac:(vm_compute; reflexivity)
                ltac:(vm_compute; reflexivity)).
  rewrite (onBssPropertiesChanged_uptime_failure Scenario.device
             "AA:BB:CC:DD:EE:FF" "/bss/1" "/ap/1" "ENOENT"
             Scenario.ageAndFrequency 0%nat 5) in Hclaim
    by (vm_compute; reflexivity).
  destruct Hclaim as (_ & _ & p' & Hp' & Hfrequency & _).
  specialize (Hfrequency 5180 eq_refl).
  vm_compute in Hp'. injection Hp' as <-. discriminate Hfrequency.
Qed.

(** *** AccessPointRemoved *)

Lemma accessPointsOf_newMap (d : WifiDevice) (m : AccessPointMap) :
  (mapObjects d ++ [m]) !! length (mapObjects d) = Some m.
Proof. apply list_lookup_middle. reflexivity. Qed.

(** What the AccessPointRemoved handler makes of the device. *)
Lemma onAccessPointRemoved_eq (apPath : string) (d : WifiDevice) :
  onAccessPointRemoved apPath d
  = (Ok tt,
     {| recordObjects := recordObjects d;
        mapObjects := mapObjects d ++ [delete apPath (accessPointsOf d)];
        signalListeners := signalListeners d;
        console := console d;
        _accessPoints := length (mapObjects d);
        _accessPointsSubject := length (mapObjects d) :: _accessPointsSubject d;
        _bssListeners := _bssListeners d;
        _bssPathMap := _bssPathMap d;
        _accessPointPathMap :=
          match _accessPointPathMap d !! apPath with
          | Some bssid => delete bssid (delete apPath (_accessPointPathMap d))
          | None => delete apPath (_accessPointPathMap d)
          end;
        _bssInterfaces := _bssInterfaces d |}).
Proof.
  unfold onAccessPointRemoved, bind, this, newMap, modify.
  destruct (_accessPointPathMap d !! apPath); reflexivity.
Qed.

(** C8, as the code has it: AccessPointRemoved(p) completes normally; the
    snapshot loses the record at p and nothing else; the index loses the
    entry at p and the entry keyed by p's hardware identity, whatever path
    that entry holds, and nothing else; every other part of the device is
    untouched. When p was never added (no record and no index entry at p)
    the snapshot and the index read as before. *)
Theorem accessPointRemoved_frame (apPath : string) (d : WifiDevice) :
  let d' := (onAccessPointRemoved apPath d).2 in
  (onAccessPointRemoved apPath d).1 = Ok tt
  /\ (forall q,
        snapshotAt d' (accessPoints d') !! q
        = if decide (apPath = q) then None
          else snapshotAt d (accessPoints d) !! q)
  /\ (forall k,
        _accessPointPathMap d' !! k
        = if decide (k = apPath \/ _accessPointPathMap d !! apPath = Some k)
          then None else _accessPointPathMap d !! k)
  /\ (recordObjects d' = recordObjects d
      /\ _bssPathMap d' = _bssPathMap d
      /\ _bssListeners d' = _bssListeners d
      /\ _bssInterfaces d' = _bssInterfaces d
      /\ signalListeners d' = signalListeners d
      /\ console d' = console d)
  /\ (accessPointsOf d !! apPath = None ->
      _accessPointPathMap d !! apPath = None ->
      snapshotAt d' (accessPoints d') = snapshotAt d (accessPoints d)
      /\ _accessPointPathMap d' = _accessPointPathMap d).
Proof.
  rewrite onAccessPointRemoved_eq. cbv zeta. cbn [fst snd].
  match goal with |- context [snapshotAt ?d1 (accessPoints ?d1)] => set (d' := d1) end.
  assert (forall q,
            snapshotAt d' (accessPoints d') !! q
            = if decide (apPath = q) then None
              else snapshotAt d (accessPoints d) !! q) as Hsnapshot.
  { intros q. unfold snapshotAt, accessPoints, d'.
    cbn [_accessPoints mapObjects recordObjects].
    rewrite accessPointsOf_newMap, !lookup_omap. cbn [default id].
    fold (accessPointsOf d). rewrite lookup_delete.
    case_decide; reflexivity. }
  assert (forall k,
            _accessPointPathMap d' !! k
            = if decide (k = apPath \/ _accessPointPathMap d !! apPath = Some k)
              then None else _accessPointPathMap d !! k) as Hindex.
  { intros k. unfold d'. cbn [_accessPointPathMap].
    destruct (_accessPointPathMap d !! apPath) as [bssid |] eqn:Hbssid;
      rewrite ?lookup_delete; repeat case_decide; try reflexivity;
      exfalso; intuition congruence. }
  split; [reflexivity |].
  split; [exact Hsnapshot |]. split; [exact Hindex |].
  split; [repeat split |].
  intros Hrecord Hentry. split.
  - apply map_eq. intros q. rewrite Hsnapshot. case_decide as Hq; [| reflexivity].
    subst q. rewrite snapshotAt_current, Hrecord. reflexivity.
  - apply map_eq. intros k. rewrite Hindex. case_decide as Hk; [| reflexivity].
    destruct Hk as [-> | Hk]; congruence.
Qed.

Lemma accessPointRemoved_frame_witness :
  let d' := (onAccessPointRemoved "/ap/9" Scenario.device).2 in
  (accessPointsOf Scenario.device !! "/ap/9" = None
   /\ _accessPointPathMap Scenario.device !! "/ap/9" = None)
  /\ snapshotAt d' (accessPoints d') = snapshotAt Scenario.device (accessPoints Scenario.device)
  /\ _accessPointPathMap d' = _accessPointPathMap Scenario.device.
Proof.
  split; [split; vm_compute; reflexivity |].
  apply (accessPointRemoved_frame "/ap/9" Scenario.device);
    vm_compute; reflexivity.
Defined.

(** C8, as the specification words it, fails: with /ap/1 and /ap/2
    announced under the same hardware address, AccessPointRemoved(/ap/1)
    deletes the address's entry for /ap/2, an entry of the pair of a
    record that stays in the snapshot. *)
Lemma removal_deletes_shared_address :
  ~ removal_keeps_other_entries Scenario.sharedAddress "/ap/1".
Proof.
  intros Hclaim.
  specialize (Hclaim "AA:BB:CC:DD:EE:FF" "/ap/2").
  assert (_accessPointPathMap
            (onAccessPointRemoved "/ap/1" Scenario.sharedAddress).2
            !! "AA:BB:CC:DD:EE:FF" = None) as Hgone
    by (vm_compute; reflexivity).
  rewrite Hgone in Hclaim.
  assert (None = Some "/ap/2") as Habsurd; [| discriminate Habsurd].
  apply Hclaim.
  - vm_compute. reflexivity.
  - discriminate.
  - intros [_ Hsame]. discriminate Hsame.
Qed.

(** The record at /ap/2 is still in the snapshot after that removal. *)
Lemma removal_keeps_other_record :
  let d' := (onAccessPointRemoved "/ap/1" Scenario.sharedAddress).2 in
  snapshotAt d' (accessPoints d') !! "/ap/2" = Some (decodeSsid Scenario.home)
  /\ _accessPointPathMap d' !! "/ap/2" = Some "AA:BB:CC:DD:EE:FF".
Proof. split; vm_compute; reflexivity. Qed.

(** *** Bootstrap *)

Lemma same_registry_refl (d : WifiDevice) : same_registry d d.
Proof. repeat split. Qed.

Lemma same_registry_trans (d1 d2 d3 : WifiDevice) :
  same_registry d1 d2 -> same_registry d2 d3 -> same_registry d1 d3.
Proof.
  unfold same_registry. intros [H12 ->] [H23 ->].
  split; [eapply same_publication_trans; eassumption | reflexivity].
Qed.

Lemma listenForBss_registry : preserves same_registry _listenForBss.
Proof.
  pose proof same_registry_refl. pose proof same_registry_trans.
  unfold _listenForBss, _listenForBssPropertyChanges, listenSignal.
  preserve ltac:(repeat split).
Qed.

Lemma new_WifiDevice_registry objects aps bssPaths apPaths interfaces :
  accessPointsOf (new_WifiDevice objects aps bssPaths apPaths interfaces) = aps
  /\ recordObjects (new_WifiDevice objects aps bssPaths apPaths interfaces) = objects.
Proof.
  unfold new_WifiDevice, accessPointsOf.
  match goal with |- context [(_listenForBss ?d0).2] =>
    destruct (listenForBss_registry d0) as ((-> & _ & ->) & ->)
  end.
  split; reflexivity.
Qed.

Lemma getAccessPointDataFromPaths_throws bus pre p post error b :
  (forall q, q ∈ pre -> exists raw, ap_properties bus q = Ok raw) ->
  ap_properties bus p = Throw error ->
  getAccessPointDataFromPaths bus (pre ++ p :: post) b = Throw error.
Proof.
  intros Hpre Hp. revert b.
  induction pre as [| q pre IH]; intros b; simpl.
  - rewrite Hp. reflexivity.
  - destruct (Hpre q) as [raw ->]; [left |]. simpl.
    apply IH. intros q' Hq'. apply Hpre. right. exact Hq'.
Qed.

Lemma getAccessPointDataFromPaths_inserts bus accessPoints b :
  (forall q, q ∈ accessPoints -> exists raw, ap_properties bus q = Ok raw) ->
  bootstrap_consistent bus b ->
  exists b',
    getAccessPointDataFromPaths bus accessPoints b = Ok b'
    /\ bootstrap_consistent bus b'
    /\ forall q,
         q ∈ accessPoints \/ is_Some (initialAccessPoints b !! q) ->
         is_Some (initialAccessPoints b' !! q).
Proof.
  revert b. induction accessPoints as [| p rest IH]; intros b Hok Hb.
  - exists b. split; [reflexivity |]. split; [exact Hb |].
    intros q [Hq | Hq]; [inversion Hq | exact Hq].
  - simpl. destruct (Hok p) as [raw Hraw]; [left |]. rewrite Hraw. simpl.
    match goal with |- context [getAccessPointDataFromPaths bus rest ?b1] =>
      destruct (IH b1) as (b' & Hrun & Hb' & Hkeys)
    end.
    + intros q Hq. apply Hok. right. exact Hq.
    + intros q r. simpl. rewrite lookup_insert. case_decide as Hq.
      * intros [= <-]. subst q. exists raw. split; [exact Hraw |].
        apply list_lookup_middle. reflexivity.
      * intros Hr. destruct (Hb q r Hr) as (raw' & Hraw' & Hobject).
        exists raw'. split; [exact Hraw' |].
        rewrite lookup_app_l; [exact Hobject |].
        eapply lookup_lt_Some. exact Hobject.
    + exists b'. split; [exact Hrun |]. split; [exact Hb' |].
      intros q Hq. apply Hkeys. simpl. rewrite lookup_insert.
      case_decide as Hqp; [right; eexists; reflexivity |].
      destruct Hq as [Hq | Hq]; [| right; exact Hq].
      apply elem_of_cons in Hq as [-> | Hq]; [congruence | left; exact Hq].
Qed.

Lemma getBSSs_accessPoints bus bss b b' :
  getBSSs bus bss b = Ok b' ->
  initialAccessPoints b' = initialAccessPoints b
  /\ initialObjects b' = initialObjects b.
Proof.
  revert b. induction bss as [| bssPath rest IH]; intros b; simpl.
  - intros [= <-]. split; reflexivity.
  - destruct (bss_interface bus bssPath) as [bssInterface |]; simpl; [| discriminate].
    destruct (bss_BSSID bus bssInterface) as [bssidArray |]; simpl; [| discriminate].
    intros Hrest. apply IH in Hrest. exact Hrest.
Qed.

(** C3, as the code has it: with phase 1 done, the first failing
    property fetch of phase 2 makes [init] throw that error, wrapped, and
    no device is made; only when every fetch of the list succeeds is the
    device made, and then every access point of the list is in its
    registry with the properties fetched for it. *)
Theorem bootstrap_all_or_nothing (bus : Bus) (accessPoints bss : list string)
    (b : Bootstrap) :
  base_init bus = Ok accessPoints ->
  wpa_interface bus = Ok tt ->
  wpa_BSSs bus = Ok bss ->
  getBSSs bus bss emptyBootstrap = Ok b ->
  (forall pre p post error,
      accessPoints = pre ++ p :: post ->
      (forall q, q ∈ pre -> exists raw, ap_properties bus q = Ok raw) ->
      ap_properties bus p = Throw error ->
      init bus = Throw ("Error creating wifi device: " +:+ error))
  /\ ((forall q, q ∈ accessPoints -> exists raw, ap_properties bus q = Ok raw) ->
      exists device,
        init bus = Ok device
        /\ forall q, q ∈ accessPoints ->
             exists raw r,
               ap_properties bus q = Ok raw
               /\ accessPointsOf device !! q = Some r
               /\ recordObjects device !! r = Some (decodeSsid raw)).
Proof.
  intros Hbase Hwpa Hbss Hphase1. split.
  - intros pre p post error -> Hpre Hp.
    unfold init, init_try. rewrite Hbase, Hwpa, Hbss. simpl.
    rewrite Hphase1. simpl.
    rewrite (getAccessPointDataFromPaths_throws bus pre p post error b Hpre Hp).
    reflexivity.
  - intros Hok.
    destruct (getAccessPointDataFromPaths_inserts bus accessPoints b Hok)
      as (b' & Hrun & Hb' & Hkeys).
    { intros q r. destruct (getBSSs_accessPoints _ _ _ _ Hphase1) as [-> _].
      simpl. rewrite lookup_empty. discriminate. }
    eexists. split.
    + unfold init, init_try. rewrite Hbase, Hwpa, Hbss. simpl.
      rewrite Hphase1. simpl. rewrite Hrun. simpl. reflexivity.
    + intros q Hq.
      destruct (new_WifiDevice_registry (initialObjects b') (initialAccessPoints b')
                  (initialBssPathMap b') (initialAccessPointPathMap b')
                  (initialBssInterfaces b')) as [-> ->].
      destruct (Hkeys q (or_introl Hq)) as [r Hr].
      destruct (Hb' q r Hr) as (raw & Hraw & Hobject).
      exists raw, r. auto.
Qed.

Lemma bootstrap_all_or_nothing_witness :
  init Scenario.busWithFailure
  = Throw ("Error creating wifi device: " +:+ "DBusError: No such object path").
Proof.
  refine (proj1 (bootstrap_all_or_nothing Scenario.busWithFailure
                   ["/ap/0"; "/ap/1"] ["/bss/1"]
                   {| initialObjects := []; initialAccessPoints := ∅;
                      initialBssPathMap :=
                        {["/bss/1" := "AA:BB:CC:DD:EE:FF";
                          "AA:BB:CC:DD:EE:FF" := "/bss/1"]};
                      initialAccessPointPathMap := ∅;
                      initialBssInterfaces := {["AA:BB:CC:DD:EE:FF" := "/bss/1"]} |}
                   _ _ _ _)
            [] "/ap/0" ["/ap/1"] "DBusError: No such object path" _ _ _);
    try (vm_compute; reflexivity).
  intros q Hq. inversion Hq.
Defined.

(** C3, as the specification words it, fails: with the properties of
    /ap/0 unavailable, [init] makes no device, so /ap/1, whose fetch
    would succeed, is not inserted either. *)
Lemma bootstrap_aborts_on_failed_fetch :
  ~ bootstrap_skips_failed_fetch Scenario.busWithFailure.
Proof.
  intros Hclaim.
  destruct (Hclaim ["/ap/0"; "/ap/1"] eq_refl) as (device & Hinit & _).
  vm_compute in Hinit. discriminate Hinit.
Qed.

End Device.


(** * Further properties of the code *)

(** ** The layout of the decoded mask *)

Section DecoderLayout.

Import NM80211ApSecurityFlags.

(** The tokens of a list, or-ed together from nothing. *)
Lemma orEach_lor (f : string -> Z) (items : list string) (flags : Z) :
  (forall s, is_mask (f s)) -> is_mask flags ->
  orEach f items flags
  = Z.lor flags (foldr (fun item acc => Z.lor (f item) acc) 0 items).
Proof.
  intros Hf. revert flags.
  induction items as [| item items IH]; intros flags Hflags.
  - simpl. symmetry. apply Z.lor_0_r.
  - rewrite orEach_cons, IH.
    + rewrite js_or_mask by auto. simpl. symmetry. apply Z.lor_assoc.
    + rewrite js_or_mask by auto. apply lor_mask; auto.
Qed.

Lemma lor_all_mask (f : string -> Z) (items : list string) :
  (forall s, is_mask (f s)) ->
  is_mask (foldr (fun item acc => Z.lor (f item) acc) 0 items).
Proof.
  intros Hf. induction items as [| item items IH]; simpl.
  - apply zero_mask.
  - apply lor_mask; auto.
Qed.

(** The mask is the bitwise or of what the three keys contribute. *)
Lemma securityFromDict_lor (d : SecurityDict) :
  securityFromDict d
  = Z.lor
      (Z.lor (foldr (fun item acc => Z.lor (keyMgmtToFlags item) acc) 0
                (default [] (KeyMgmt d)))
             (foldr (fun item acc => Z.lor (pairToFlags item) acc) 0
                (default [] (Pairwise d))))
      (from_option groupToFlags 0 (Group d)).
Proof.
  pose proof keyMgmtToFlags_mask as Hk. pose proof pairToFlags_mask as Hp.
  pose proof groupToFlags_mask as Hg. pose proof zero_mask as H0.
  assert (forall items,
            orEach keyMgmtToFlags items NM_802_11_AP_SEC_NONE
            = foldr (fun item acc => Z.lor (keyMgmtToFlags item) acc) 0 items) as HK.
  { intros items. rewrite orEach_lor by auto. apply Z.lor_0_l. }
  unfold securityFromDict.
  destruct d as [[km |] [pw |] [g |]]; cbn [KeyMgmt Pairwise Group default from_option];
    rewrite ?HK, ?orEach_lor, ?js_or_mask;
    auto using lor_all_mask, lor_mask;
    cbn [foldr]; unfold NM_802_11_AP_SEC_NONE;
    rewrite ?Z.lor_0_r, ?Z.lor_0_l; reflexivity.
Qed.

(** X1: whatever the dictionary holds, the decoded mask lies within the 14
    bits of the flag vocabulary: it is never negative and never reaches
    0x4000. *)
Theorem securityFromDict_range (d : SecurityDict) :
  0 <= securityFromDict d < 0x4000.
Proof.
  rewrite securityFromDict_lor.
  change (is_mask
            (Z.lor
               (Z.lor (foldr (fun item acc => Z.lor (keyMgmtToFlags item) acc) 0
                         (default [] (KeyMgmt d)))
                      (foldr (fun item acc => Z.lor (pairToFlags item) acc) 0
                         (default [] (Pairwise d))))
               (from_option groupToFlags 0 (Group d)))).
  repeat apply lor_mask;
    auto using lor_all_mask, keyMgmtToFlags_mask, pairToFlags_mask.
  destruct (Group d); [apply groupToFlags_mask | apply zero_mask].
Qed.

Lemma testbit_lor_all (f : string -> Z) (items : list string) (n : Z) :
  Z.testbit (foldr (fun item acc => Z.lor (f item) acc) 0 items) n
  = existsb (fun item => Z.testbit (f item) n) items.
Proof.
  induction items as [| item items IH]; simpl.
  - apply Z.bits_0.
  - rewrite Z.lor_spec, IH. reflexivity.
Qed.

Lemma lor_all_same_tokens (f : string -> Z) (items items' : list string) :
  (forall t, t ∈ items <-> t ∈ items') ->
  foldr (fun item acc => Z.lor (f item) acc) 0 items
  = foldr (fun item acc => Z.lor (f item) acc) 0 items'.
Proof.
  intros Hsame. apply Z.bits_inj'. intros n _. rewrite !testbit_lor_all.
  apply Bool.eq_iff_eq_true. rewrite !existsb_exists.
  split; intros (t & Hin & Hbit); exists t; split; try exact Hbit;
    apply list_elem_of_In, Hsame, list_elem_of_In, Hin.
Qed.

(** X2: the mask depends on which tokens are listed, not on their order
    nor on how often one is repeated: dictionaries whose KeyMgmt lists have
    the same members and whose Pairwise lists have the same members decode
    to the same mask. *)
Theorem securityFromDict_same_tokens
    (keyMgmt keyMgmt' pairwise pairwise' : list string) (group : option string) :
  (forall t, t ∈ keyMgmt <-> t ∈ keyMgmt') ->
  (forall t, t ∈ pairwise <-> t ∈ pairwise') ->
  securityFromDict {| KeyMgmt := Some keyMgmt; Pairwise := Some pairwise;
                      Group := group |}
  = securityFromDict {| KeyMgmt := Some keyMgmt'; Pairwise := Some pairwise';
                        Group := group |}.
Proof.
  intros Hk Hp. rewrite !securityFromDict_lor.
  cbn [KeyMgmt Pairwise Group from_option id].
  rewrite (lor_all_same_tokens keyMgmtToFlags keyMgmt keyMgmt' Hk).
  rewrite (lor_all_same_tokens pairToFlags pairwise pairwise' Hp).
  reflexivity.
Qed.

Lemma securityFromDict_same_tokens_witness :
  securityFromDict {| KeyMgmt := Some ["sae"; "wpa-psk"; "sae"];
                      Pairwise := Some ["tkip"; "ccmp"]; Group := Some "tkip" |}
  = securityFromDict {| KeyMgmt := Some ["wpa-psk"; "sae"];
                        Pairwise := Some ["ccmp"; "tkip"; "ccmp"];
                        Group := Some "tkip" |}.
Proof.
  apply (securityFromDict_same_tokens ["sae"; "wpa-psk"; "sae"] ["wpa-psk"; "sae"]
           ["tkip"; "ccmp"] ["ccmp"; "tkip"; "ccmp"] (Some "tkip"));
    intros t; rewrite !elem_of_cons, !elem_of_nil; tauto.
Defined.

(** Splits on which [case] of a switch the token [s] takes. *)
Ltac switch_on s :=
  repeat match goal with
         | |- context [String.eqb s ?c] =>
             destruct (String.eqb_spec s c) as [-> | ?]; cbv iota
         end.

Lemma land_lor_all (f : string -> Z) (items : list string) (m : Z) :
  Z.land (foldr (fun item acc => Z.lor (f item) acc) 0 items) m <> 0
  <-> exists s, s ∈ items /\ Z.land (f s) m <> 0.
Proof.
  induction items as [| item items IH]; simpl.
  - split; [intros H; contradiction H; reflexivity |].
    intros (s & Hs & _). inversion Hs.
  - rewrite Z.land_lor_distr_l. split.
    + intros Hne.
      destruct (Z.eq_dec (Z.land (f item) m) 0) as [Hitem | Hitem].
      * rewrite Hitem, Z.lor_0_l in Hne. apply IH in Hne as (s & Hs & Hbit).
        exists s. split; [right; exact Hs | exact Hbit].
      * exists item. split; [left | exact Hitem].
    + intros (s & Hs & Hbit) Hzero. apply Z.lor_eq_0_iff in Hzero as [Hitem Hrest].
      apply elem_of_cons in Hs as [-> | Hs]; [contradiction |].
      apply IH; [| exact Hrest]. exists s. auto.
Qed.

Lemma land_lor_all_zero (f : string -> Z) (items : list string) (m : Z) :
  (forall s, Z.land (f s) m = 0) ->
  Z.land (foldr (fun item acc => Z.lor (f item) acc) 0 items) m = 0.
Proof.
  intros Hf. destruct (Z.eq_dec (Z.land (foldr (fun item acc => Z.lor (f item) acc) 0 items) m) 0)
    as [Hz | Hnz]; [exact Hz |].
  apply land_lor_all in Hnz as (s & _ & Hbit). contradiction (Hbit (Hf s)).
Qed.

Lemma keyMgmt_bit_own (s t : string) :
  keyMgmtToFlags t <> 0 ->
  Z.land (keyMgmtToFlags s) (keyMgmtToFlags t) <> 0 <-> s = t.
Proof.
  unfold keyMgmtToFlags. switch_on t; switch_on s;
    intros Ht; try (exfalso; apply Ht; reflexivity);
    split; intros Hst; try congruence;
    try (exfalso; apply Hst; reflexivity);
    vm_compute; congruence.
Qed.

Lemma pair_bit_own (s t : string) :
  pairToFlags t <> 0 ->
  Z.land (pairToFlags s) (pairToFlags t) <> 0 <-> s = t.
Proof.
  unfold pairToFlags. switch_on t; switch_on s;
    intros Ht; try (exfalso; apply Ht; reflexivity);
    split; intros Hst; try congruence;
    try (exfalso; apply Hst; reflexivity);
    vm_compute; congruence.
Qed.

Lemma group_bit_own (s t : string) :
  groupToFlags t <> 0 ->
  Z.land (groupToFlags s) (groupToFlags t) <> 0 <-> s = t.
Proof.
  unfold groupToFlags. switch_on t; switch_on s;
    intros Ht; try (exfalso; apply Ht; reflexivity);
    split; intros Hst; try congruence;
    try (exfalso; apply Hst; reflexivity);
    vm_compute; congruence.
Qed.

(** The three bit ranges do not meet. *)
Lemma bit_ranges_apart (s t : string) :
  Z.land (keyMgmtToFlags s) (pairToFlags t) = 0
  /\ Z.land (keyMgmtToFlags s) (groupToFlags t) = 0
  /\ Z.land (pairToFlags s) (keyMgmtToFlags t) = 0
  /\ Z.land (pairToFlags s) (groupToFlags t) = 0
  /\ Z.land (groupToFlags s) (keyMgmtToFlags t) = 0
  /\ Z.land (groupToFlags s) (pairToFlags t) = 0.
Proof.
  unfold keyMgmtToFlags, pairToFlags, groupToFlags.
  repeat split; switch_on t; switch_on s; reflexivity.
Qed.

Lemma land_group_option (g : option string) (m : Z) :
  (forall s, Z.land (groupToFlags s) m = 0) ->
  Z.land (from_option groupToFlags 0 g) m = 0.
Proof. intros Hg. destruct g; simpl; [apply Hg | reflexivity]. Qed.

(** X3: a key-management bit is set in the mask exactly when its token is
    in the KeyMgmt list; no Pairwise or Group token can set it. *)
Theorem keyMgmt_bit_iff_listed (d : SecurityDict) (t : string) :
  keyMgmtToFlags t <> 0 ->
  Z.land (securityFromDict d) (keyMgmtToFlags t) <> 0
  <-> exists items, KeyMgmt d = Some items /\ t ∈ items.
Proof.
  intros Ht. rewrite securityFromDict_lor, !Z.land_lor_distr_l.
  rewrite (land_lor_all_zero pairToFlags) by (intros s; apply bit_ranges_apart).
  rewrite land_group_option by (intros s; apply bit_ranges_apart).
  rewrite !Z.lor_0_r, land_lor_all. split.
  - intros (s & Hs & Hbit). apply keyMgmt_bit_own in Hbit; [subst s | exact Ht].
    destruct (KeyMgmt d) as [items |]; [eauto | inversion Hs].
  - intros (items & -> & Hin). exists t. split; [exact Hin |].
    apply keyMgmt_bit_own; [exact Ht | reflexivity].
Qed.

Lemma keyMgmt_bit_iff_listed_witness :
  Z.land (securityFromDict {| KeyMgmt := Some ["wpa-psk"; "sae"];
                              Pairwise := Some ["ccmp"]; Group := Some "ccmp" |})
         (keyMgmtToFlags "sae") <> 0.
Proof.
  apply (keyMgmt_bit_iff_listed
           {| KeyMgmt := Some ["wpa-psk"; "sae"]; Pairwise := Some ["ccmp"];
              Group := Some "ccmp" |} "sae").
  - discriminate.
  - exists ["wpa-psk"; "sae"]. split; [reflexivity |]. right. left.
Defined.

(** X4: a pairwise-cipher bit is set in the mask exactly when its token is
    in the Pairwise list; the Group token of the same name sets another
    bit. *)
Theorem pairwise_bit_iff_listed (d : SecurityDict) (t : string) :
  pairToFlags t <> 0 ->
  Z.land (securityFromDict d) (pairToFlags t) <> 0
  <-> exists items, Pairwise d = Some items /\ t ∈ items.
Proof.
  intros Ht. rewrite securityFromDict_lor, !Z.land_lor_distr_l.
  rewrite (land_lor_all_zero keyMgmtToFlags) by (intros s; apply bit_ranges_apart).
  rewrite land_group_option by (intros s; apply bit_ranges_apart).
  rewrite Z.lor_0_r, Z.lor_0_l, land_lor_all. split.
  - intros (s & Hs & Hbit). apply pair_bit_own in Hbit; [subst s | exact Ht].
    destruct (Pairwise d) as [items |]; [eauto | inversion Hs].
  - intros (items & -> & Hin). exists t. split; [exact Hin |].
    apply pair_bit_own; [exact Ht | reflexivity].
Qed.

Lemma pairwise_bit_iff_listed_witness :
  Z.land (securityFromDict {| KeyMgmt := Some ["wpa-psk"]; Pairwise := Some ["tkip"; "ccmp"];
                              Group := Some "wep40" |})
         (pairToFlags "ccmp") <> 0.
Proof.
  apply (pairwise_bit_iff_listed
           {| KeyMgmt := Some ["wpa-psk"]; Pairwise := Some ["tkip"; "ccmp"];
              Group := Some "wep40" |} "ccmp").
  - discriminate.
  - exists ["tkip"; "ccmp"]. split; [reflexivity |]. right. left.
Defined.

(** X5: a group-cipher bit is set in the mask exactly when the Group key
    holds its token; listing the token under Pairwise does not set it. *)
Theorem group_bit_iff_token (d : SecurityDict) (t : string) :
  groupToFlags t <> 0 ->
  Z.land (securityFromDict d) (groupToFlags t) <> 0 <-> Group d = Some t.
Proof.
  intros Ht. rewrite securityFromDict_lor, !Z.land_lor_distr_l.
  rewrite (land_lor_all_zero keyMgmtToFlags) by (intros s; apply bit_ranges_apart).
  rewrite (land_lor_all_zero pairToFlags) by (intros s; apply bit_ranges_apart).
  rewrite !Z.lor_0_l.
  destruct (Group d) as [g |]; simpl.
  - rewrite group_bit_own by exact Ht. split; congruence.
  - split; [intros H; contradiction H; reflexivity | discriminate].
Qed.

Lemma group_bit_iff_token_witness :
  Z.land (securityFromDict {| KeyMgmt := None; Pairwise := Some ["ccmp"];
                              Group := Some "tkip" |})
         (groupToFlags "tkip") <> 0.
Proof.
  apply (group_bit_iff_token
           {| KeyMgmt := None; Pairwise := Some ["ccmp"]; Group := Some "tkip" |}
           "tkip").
  - discriminate.
  - reflexivity.
Defined.

End DecoderLayout.

(** ** Reading the uptime *)

Section Uptime.

Import JsString.

Lemma digitValue_pretty_char (x : N) :
  (x < 10)%N -> digitValue 10 (pretty_N_char x) = Some (Z.of_N x).
Proof.
  intros Hx.
  assert (x = 0 \/ x = 1 \/ x = 2 \/ x = 3 \/ x = 4 \/ x = 5 \/ x = 6
          \/ x = 7 \/ x = 8 \/ x = 9)%N as Hcases by lia.
  repeat destruct Hcases as [-> | Hcases]; try subst x; reflexivity.
Qed.

Lemma pretty_char_not_space (x : N) : Ascii.eqb (pretty_N_char x) " " = false.
Proof. unfold pretty_N_char. repeat case_match; reflexivity. Qed.

(** The digits of [x], most significant first, are read back as [x]. *)
Lemma digits_pretty_go (x : N) (s : string) :
  (0 < x)%N ->
  digits 10 (pretty_N_go x s) None = digits 10 s (Some (Z.of_N x)).
Proof.
  revert s. induction (N.lt_wf_0 x) as [x _ IH]. intros s Hx.
  rewrite pretty_N_go_step by exact Hx.
  assert (x `mod` 10 < 10)%N as Hmod by (apply N.mod_lt; lia).
  pose proof (N.div_mod x 10 ltac:(lia)) as Hdiv.
  destruct (decide (x `div` 10 = 0)%N) as [Hzero | Hpos].
  - rewrite Hzero, pretty_N_go_0. cbn [digits].
    rewrite digitValue_pretty_char by exact Hmod. cbn [default from_option id].
    f_equal. f_equal. lia.
  - rewrite IH; [| apply N.div_lt; lia | lia]. cbn [digits].
    rewrite digitValue_pretty_char by exact Hmod. cbn [default from_option id].
    f_equal. f_equal. lia.
Qed.

Lemma firstField_pretty_go (x : N) (s : string) :
  firstField (pretty_N_go x s) = pretty_N_go x (firstField s).
Proof.
  revert s. induction (N.lt_wf_0 x) as [x _ IH]. intros s.
  destruct (decide (0 < x)%N) as [Hx | Hx].
  - rewrite (pretty_N_go_step x s), (pretty_N_go_step x (firstField s)) by exact Hx.
    rewrite IH by (apply N.div_lt; lia). cbn [firstField].
    rewrite pretty_char_not_space. reflexivity.
  - assert (x = 0%N) as -> by lia. rewrite !pretty_N_go_0. reflexivity.
Qed.

Lemma append_pretty_go (x : N) (s rest : string) :
  pretty_N_go x s +:+ rest = pretty_N_go x (s +:+ rest).
Proof.
  revert s. induction (N.lt_wf_0 x) as [x _ IH]. intros s.
  destruct (decide (0 < x)%N) as [Hx | Hx].
  - rewrite (pretty_N_go_step x s), (pretty_N_go_step x (s +:+ rest)) by exact Hx.
    rewrite IH by (apply N.div_lt; lia). reflexivity.
  - assert (x = 0%N) as -> by lia. rewrite !pretty_N_go_0. reflexivity.
Qed.

(** A positive number is printed with a first digit from 1 to 9. *)
Lemma pretty_go_head (x : N) (s : string) :
  (0 < x)%N ->
  exists digit tail,
    pretty_N_go x s = String (pretty_N_char digit) tail /\ (0 < digit < 10)%N.
Proof.
  revert s. induction (N.lt_wf_0 x) as [x _ IH]. intros s Hx.
  rewrite pretty_N_go_step by exact Hx.
  destruct (decide (x `div` 10 = 0)%N) as [Hzero | Hpos].
  - rewrite Hzero, pretty_N_go_0. exists (x `mod` 10)%N, s. split; [reflexivity |].
    pose proof (N.div_mod x 10 ltac:(lia)). pose proof (N.mod_lt x 10 ltac:(lia)). lia.
  - apply IH; [apply N.div_lt; lia | apply N.neq_0_lt_0; exact Hpos].
Qed.

(** Trimming keeps a text that begins with a byte below 128 that is not
    white space. *)
Lemma trimStart_keeps (a : ascii) (rest : string) :
  (N_of_ascii a < 128)%N ->
  isWhiteSpace (N_of_ascii a) = false ->
  trimStart (String a rest) = String a rest.
Proof.
  intros Hbyte Hspace. cbn [trimStart].
  unfold codePoint1, codePoint2, codePoint3.
  apply N.ltb_lt in Hbyte as Hlt. rewrite Hlt. cbn [skipped]. rewrite Hspace.
  assert ((194 <=? N_of_ascii a)%N = false) as -> by (apply N.leb_gt; lia).
  assert ((224 <=? N_of_ascii a)%N = false) as -> by (apply N.leb_gt; lia).
  cbn [andb skipped].
  destruct rest as [| b [| c rest3]]; reflexivity.
Qed.

(** Before a first digit from 1 to 9 there is no white space, sign or
    radix prefix to deal with. *)
Lemma parseInt_leading_digit (digit : N) (tail : string) (n : Z) :
  (0 < digit < 10)%N ->
  isExactInteger n = true ->
  digits 10 (String (pretty_N_char digit) tail) None = Some n ->
  parseInt (String (pretty_N_char digit) tail) = JInt n.
Proof.
  intros Hdigit Hexact.
  assert (digit = 1 \/ digit = 2 \/ digit = 3 \/ digit = 4 \/ digit = 5
          \/ digit = 6 \/ digit = 7 \/ digit = 8 \/ digit = 9)%N as Hcases by lia.
  repeat destruct Hcases as [-> | Hcases]; try subst digit;
    intros Hdigits; cbn [pretty_N_char] in *; unfold parseInt;
    rewrite trimStart_keeps by (vm_compute; reflexivity);
    cbn -[digits Z.mul isExactInteger]; rewrite Hdigits, Hexact; f_equal; lia.
Qed.

Lemma parseInt_uptime (n : N) (fraction : string) :
  (n <= 2 ^ 53)%N ->
  parseInt (firstField (pretty n +:+ "." +:+ fraction)) = JInt (Z.of_N n).
Proof.
  intros Hbound. unfold pretty, pretty_N. case_decide as Hn.
  - subst n.
    change (firstField ("0" +:+ "." +:+ fraction))
      with (String "0" (String "." (firstField fraction))).
    unfold parseInt.
    rewrite trimStart_keeps by (vm_compute; reflexivity). reflexivity.
  - rewrite append_pretty_go, firstField_pretty_go.
    destruct (pretty_go_head n (firstField ("" +:+ "." +:+ fraction)))
      as (digit & tail & Hhead & Hdigit); [lia |].
    rewrite Hhead. apply parseInt_leading_digit; [exact Hdigit | |].
    + apply N2Z.inj_le in Hbound.
      change (Z.of_N (2 ^ 53)) with (2 ^ 53) in Hbound.
      unfold isExactInteger. apply andb_true_iff. rewrite !Z.leb_le. lia.
    + rewrite <- Hhead, digits_pretty_go by lia. reflexivity.
Qed.

(** White space of more than one byte is skipped (U+00A0, U+FEFF and
    U+2028 here); a byte that is no character by itself is not. *)
Lemma parseInt_white_space :
  parseInt (String (ascii_of_N 194) (String (ascii_of_N 160) "42.5")) = JInt 42
  /\ parseInt (String (ascii_of_N 239) (String (ascii_of_N 187)
                 (String (ascii_of_N 191) "42.5"))) = JInt 42
  /\ parseInt (String (ascii_of_N 226) (String (ascii_of_N 128)
                 (String (ascii_of_N 168) " -0x1A"))) = JInt (-26)
  /\ parseInt (String (ascii_of_N 160) "42.5") = JNaN.
Proof. repeat split; vm_compute; reflexivity. Qed.

(** Digits that spell an integer beyond 2^53 are read as a number the
    model does not determine. *)
Lemma parseInt_beyond_exact :
  parseInt "9007199254740992.00" = JInt (2 ^ 53)
  /\ parseInt "9007199254740993.25" = JOther
  /\ js_add (parseInt "9007199254740992.00") (JInt 1) = JOther.
Proof. repeat split; vm_compute; reflexivity. Qed.

(** X6: when /proc/uptime reads "<n>.<anything>" for a natural number n
    of at most 2^53 (the integers a number of the program holds exactly),
    the uptime is the whole seconds n: the fraction and the rest of the
    file are dropped, nothing is logged and the device is not touched. *)
Theorem getUptime_whole_seconds (n : N) (fraction : string) (d : WifiDevice) :
  (n <= 2 ^ 53)%N ->
  _getUptime (Ok (pretty n +:+ "." +:+ fraction)) d = (Ok (JInt (Z.of_N n)), d).
Proof.
  intros Hbound. unfold _getUptime, ret. rewrite parseInt_uptime by exact Hbound.
  reflexivity.
Qed.

Lemma getUptime_whole_seconds_witness :
  _getUptime (Ok (pretty 86400%N +:+ "." +:+ "25 170000.5")) Scenario.device
  = (Ok (JInt (Z.of_N 86400)), Scenario.device).
Proof.
  apply (getUptime_whole_seconds 86400 "25 170000.5" Scenario.device).
  vm_compute. discriminate.
Defined.

End Uptime.

(** ** Property changes *)

Section PropertyChanges.

Ltac preserve tac :=
  repeat first
    [ assumption
    | match goal with |- forall _, _ => intro end
    | simple apply preserves_ret
    | simple apply preserves_throw
    | simple apply preserves_this
    | simple apply preserves_bind
    | simple apply preserves_forEach
    | simple apply preserves_modify
    | progress cbv beta zeta
    | case_match
    | solve [tac] ].

Lemma same_identity_refl (p : AccessPointProperties) : same_identity p p.
Proof. repeat split. Qed.

Lemma patch_frame_refl (d : WifiDevice) : patch_frame d d.
Proof.
  split; [apply same_publication_refl |]. split; [reflexivity |].
  split; [| repeat split].
  intros r p p' Hp Hp'. rewrite Hp in Hp'. injection Hp' as <-.
  apply same_identity_refl.
Qed.

Lemma patch_frame_trans (d1 d2 d3 : WifiDevice) :
  patch_frame d1 d2 -> patch_frame d2 d3 -> patch_frame d1 d3.
Proof.
  intros (Hpub12 & Hlen12 & Hid12 & Hl12 & Hh12 & Hb12 & Ha12 & Hi12)
         (Hpub23 & Hlen23 & Hid23 & Hl23 & Hh23 & Hb23 & Ha23 & Hi23).
  split; [eapply same_publication_trans; eassumption |].
  split; [congruence |].
  split; [| repeat split; congruence].
  intros r p p'' Hp Hp''.
  destruct (lookup_lt_is_Some_2 (recordObjects d2) r) as [p' Hp'].
  { rewrite Hlen12. eapply lookup_lt_Some. exact Hp. }
  destruct (Hid12 r p p' Hp Hp') as (? & ? & ? & ? & ? & ?).
  destruct (Hid23 r p' p'' Hp' Hp'') as (? & ? & ? & ? & ? & ?).
  repeat split; congruence.
Qed.

Lemma patch_frame_assign (d : WifiDevice) (r : nat)
    (f : AccessPointProperties -> AccessPointProperties) :
  (forall p, same_identity p (f p)) ->
  patch_frame d (upd_recordObjects (alter f r) d).
Proof.
  intros Hf. split; [unfold same_publication; repeat split |].
  split; [apply length_alter |].
  split; [| repeat split].
  intros r' p p' Hp. cbn. rewrite list_lookup_alter. case_decide as Hr.
  - subst r'. rewrite Hp. intros [= <-]. apply Hf.
  - rewrite Hp. intros [= <-]. apply same_identity_refl.
Qed.

Lemma patch_frame_console (d : WifiDevice) (f : list string -> list string) :
  patch_frame d (upd_console f d).
Proof.
  destruct (patch_frame_refl d) as (_ & Hlen & Hid & _).
  split; [unfold same_publication; repeat split |].
  split; [exact Hlen |]. split; [exact Hid | repeat split].
Qed.

Lemma onBssPropertiesChanged_frame bssid params readFile :
  preserves patch_frame (onBssPropertiesChanged bssid params readFile).
Proof.
  pose proof patch_frame_refl. pose proof patch_frame_trans.
  unfold onBssPropertiesChanged, console_error, member, assign, _getUptime.
  preserve ltac:(first [ apply patch_frame_console
                       | apply patch_frame_assign; intros ?; repeat split ]).
Qed.

(** X7: however a property change completes, normally or by throwing, it
    writes nothing but LastSeen, Frequency, WpaFlags and RsnFlags: every
    record object keeps its hardware address, SSID, flags, mode, bitrate
    and strength, no record object is made or lost, and the map objects,
    both indexes and the subscriptions are as before. *)
Theorem propertiesChanged_frame (bssid : string) (params : BssChanges)
    (readFile : result string) (d : WifiDevice) :
  let d' := (onBssPropertiesChanged bssid params readFile d).2 in
  length (recordObjects d') = length (recordObjects d)
  /\ (forall r p,
        recordObjects d !! r = Some p ->
        exists p',
          recordObjects d' !! r = Some p'
          /\ HwAddress p' = HwAddress p /\ Ssid p' = Ssid p /\ Flags p' = Flags p
          /\ Mode p' = Mode p /\ MaxBitrate p' = MaxBitrate p
          /\ Strength p' = Strength p)
  /\ mapObjects d' = mapObjects d
  /\ _accessPointPathMap d' = _accessPointPathMap d
  /\ _bssPathMap d' = _bssPathMap d
  /\ _bssInterfaces d' = _bssInterfaces d
  /\ _bssListeners d' = _bssListeners d
  /\ signalListeners d' = signalListeners d.
Proof.
  destruct (onBssPropertiesChanged_frame bssid params readFile d)
    as ((_ & _ & Hmaps) & Hlen & Hid & Hl & Hh & Hb & Ha & Hi).
  cbv zeta. split; [exact Hlen |]. split; [| repeat split; assumption].
  intros r p Hp.
  destruct (lookup_lt_is_Some_2
              (recordObjects (onBssPropertiesChanged bssid params readFile d).2) r)
    as [p' Hp'].
  { rewrite Hlen. eapply lookup_lt_Some. exact Hp. }
  exists p'. split; [exact Hp' |]. exact (Hid r p p' Hp Hp').
Qed.

(** What the handler does when the identity resolves on both sides and
    the uptime, if it is needed, can be read. *)
Lemma onBssPropertiesChanged_patch (d : WifiDevice)
    (bssid bssPath apPath data : string) (params : BssChanges)
    (readFile : result string) (r : nat) :
  _bssPathMap d !! bssid = Some bssPath ->
  _accessPointPathMap d !! bssid = Some apPath ->
  accessPointsOf d !! apPath = Some r ->
  readFile = Ok data \/ Age params = None ->
  onBssPropertiesChanged bssid params readFile d
  = (Ok tt,
     upd_recordObjects
       (alter (patched params (JsString.parseInt (JsString.firstField data))) r) d).
Proof.
  intros Hbss Hap Hr Hread.
  unfold onBssPropertiesChanged, bind, this. cbn -[accessPointsOf].
  rewrite Hbss, Hap, Hr.
  destruct params as [age frequency wpa rsn]. cbn [Age NewFrequency WPA RSN] in *.
  destruct d as [recs maps listeners log current subject handles bssPaths apPaths interfaces].
  destruct age as [age |]; [destruct Hread as [-> | Hnone]; [| discriminate] |];
    destruct frequency as [frequency |], wpa as [wpa |], rsn as [rsn |];
    cbn; unfold assign, modify, upd_recordObjects; cbn; f_equal; f_equal;
    rewrite ?list_alter_alter_eq;
    first [ apply list_alter_ext; [intros p _; reflexivity | reflexivity]
          | symmetry; apply list_alter_id; intros [? ? ? ? ? ? ? ? ? ?]; reflexivity ].
Qed.

(** X8: a property change that resolves to a record of the snapshot, with
    the uptime readable whenever the event carries Age and uptime + Age
    within what the model determines (NaN, or an integer the program holds
    exactly), completes normally and replaces exactly the fields the event
    names: LastSeen by uptime + Age, Frequency by the Frequency carried,
    WpaFlags and RsnFlags by the decoded WPA and RSN dictionaries; a field
    the event does not name keeps its value. *)
Theorem propertiesChanged_patches (d : WifiDevice)
    (bssid bssPath apPath data : string) (params : BssChanges)
    (readFile : result string) (r : nat) (p : AccessPointProperties) :
  _bssPathMap d !! bssid = Some bssPath ->
  _accessPointPathMap d !! bssid = Some apPath ->
  accessPointsOf d !! apPath = Some r ->
  recordObjects d !! r = Some p ->
  readFile = Ok data \/ Age params = None ->
  (forall age,
     Age params = Some age ->
     js_add (JsString.parseInt (JsString.firstField data)) (JInt age) <> JOther) ->
  exists d',
    onBssPropertiesChanged bssid params readFile d = (Ok tt, d')
    /\ console d' = console d
    /\ snapshotAt d' (accessPoints d') !! apPath
       = Some (patched params (JsString.parseInt (JsString.firstField data)) p).
Proof.
  intros Hbss Hap Hr Hp Hread _. eexists. split.
  - eapply onBssPropertiesChanged_patch; eassumption.
  - split; [reflexivity |].
    rewrite snapshotAt_current. unfold accessPointsOf. cbn.
    fold (accessPointsOf d). rewrite Hr. cbn.
    rewrite list_lookup_alter_eq, Hp. reflexivity.
Qed.

Lemma propertiesChanged_patches_witness :
  exists d',
    onBssPropertiesChanged "AA:BB:CC:DD:EE:FF"
      {| Age := Some 5; NewFrequency := Some 5180;
         WPA := Some {| NM80211ApSecurityFlags.KeyMgmt := Some ["wpa-psk"];
                        NM80211ApSecurityFlags.Pairwise := Some ["tkip"];
                        NM80211ApSecurityFlags.Group := Some "tkip" |};
         RSN := None |}
      (Ok "100.25 17.3") Scenario.device = (Ok tt, d')
    /\ console d' = console Scenario.device
    /\ snapshotAt d' (accessPoints d') !! "/ap/1"
       = Some (patched
                 {| Age := Some 5; NewFrequency := Some 5180;
                    WPA := Some {| NM80211ApSecurityFlags.KeyMgmt := Some ["wpa-psk"];
                                   NM80211ApSecurityFlags.Pairwise := Some ["tkip"];
                                   NM80211ApSecurityFlags.Group := Some "tkip" |};
                    RSN := None |}
                 (JsString.parseInt (JsString.firstField "100.25 17.3"))
                 (decodeSsid Scenario.home)).
Proof.
  apply (propertiesChanged_patches Scenario.device "AA:BB:CC:DD:EE:FF" "/bss/1"
           "/ap/1" "100.25 17.3" _ (Ok "100.25 17.3") 0%nat
           (decodeSsid Scenario.home)).
  - vm_compute. reflexivity.
  - vm_compute. reflexivity.
  - vm_compute. reflexivity.
  - vm_compute. reflexivity.
  - left. reflexivity.
  - intros age [= <-]. vm_compute. discriminate.
Defined.

(** X9: when the first field of the uptime file has no digit after its
    leading white space, sign and radix prefix (an empty file, for one), a
    property change carrying Age still completes normally with nothing
    logged, and the record's LastSeen becomes NaN. *)
Theorem unparsable_uptime_stores_NaN (d : WifiDevice)
    (bssid bssPath apPath data : string) (params : BssChanges)
    (r : nat) (p : AccessPointProperties) (age : Z) :
  _bssPathMap d !! bssid = Some bssPath ->
  _accessPointPathMap d !! bssid = Some apPath ->
  accessPointsOf d !! apPath = Some r ->
  recordObjects d !! r = Some p ->
  Age params = Some age ->
  JsString.parseInt (JsString.firstField data) = JNaN ->
  exists d' p',
    onBssPropertiesChanged bssid params (Ok data) d = (Ok tt, d')
    /\ console d' = console d
    /\ snapshotAt d' (accessPoints d') !! apPath = Some p'
    /\ LastSeen p' = JNaN.
Proof.
  intros Hbss Hap Hr Hp Hage Hnan. eexists _, _. split.
  - eapply onBssPropertiesChanged_patch; try eassumption. left. reflexivity.
  - split; [reflexivity |].
    rewrite snapshotAt_current. unfold accessPointsOf. cbn.
    fold (accessPointsOf d). rewrite Hr. cbn.
    rewrite list_lookup_alter_eq, Hp. cbn [fmap option_fmap option_map].
    split; [reflexivity |].
    unfold patched. cbn [LastSeen]. rewrite Hage, Hnan. reflexivity.
Qed.

Lemma unparsable_uptime_stores_NaN_witness :
  exists d' p',
    onBssPropertiesChanged "AA:BB:CC:DD:EE:FF" Scenario.ageOnly (Ok "")
      Scenario.device = (Ok tt, d')
    /\ console d' = console Scenario.device
    /\ snapshotAt d' (accessPoints d') !! "/ap/1" = Some p'
    /\ LastSeen p' = JNaN.
Proof.
  apply (unparsable_uptime_stores_NaN Scenario.device "AA:BB:CC:DD:EE:FF"
           "/bss/1" "/ap/1" "" Scenario.ageOnly 0%nat (decodeSsid Scenario.home) 5);
    vm_compute; reflexivity.
Defined.

(** X10: when the identity of the subscription is missing from the BSS
    index, or from the access-point index, the callback logs which one was
    not found and returns: whatever the event carries, it does not throw,
    the uptime file plays no part, and nothing but the log changes. *)
Theorem correlation_miss_is_logged (d : WifiDevice) (bssid : string)
    (params : BssChanges) (readFile : result string) :
  _bssPathMap d !! bssid = None \/ _accessPointPathMap d !! bssid = None ->
  onBssPropertiesChanged bssid params readFile d
  = (Ok tt,
     upd_console
       (fun c => c ++ [match _bssPathMap d !! bssid with
                       | Some _ => "apPath"
                       | None => "bssPath"
                       end +:+ " not found for " +:+ bssid]) d).
Proof.
  intros Hmiss. unfold onBssPropertiesChanged, bind, this. cbn.
  destruct (_bssPathMap d !! bssid) as [bssPath |]; [| reflexivity].
  destruct Hmiss as [Hmiss | ->]; [discriminate | reflexivity].
Qed.

Lemma correlation_miss_is_logged_witness :
  onBssPropertiesChanged "AA:BB:CC:DD:EE:FF" Scenario.ageAndFrequency
    (Throw "ENOENT") Scenario.blank
  = (Ok tt,
     upd_console
       (fun c => c ++ [match _bssPathMap Scenario.blank !! "AA:BB:CC:DD:EE:FF" with
                       | Some _ => "apPath"
                       | None => "bssPath"
                       end +:+ " not found for " +:+ "AA:BB:CC:DD:EE:FF"])
       Scenario.blank).
Proof.
  apply (correlation_miss_is_logged Scenario.blank "AA:BB:CC:DD:EE:FF"
           Scenario.ageAndFrequency (Throw "ENOENT")).
  left. vm_compute. reflexivity.
Defined.

End PropertyChanges.

(** ** The registry under add and remove events *)

Section Registry.

(** What the AccessPointAdded handler makes of the device when the
    properties were fetched. *)
Lemma onAccessPointAdded_eq (apPath : string) (raw : RawAccessPointProperties)
    (d : WifiDevice) :
  onAccessPointAdded apPath (Ok raw) d
  = (Ok tt,
     {| recordObjects := recordObjects d ++ [decodeSsid raw];
        mapObjects :=
          mapObjects d ++ [<[apPath := length (recordObjects d)]> (accessPointsOf d)];
        signalListeners := signalListeners d;
        console := console d;
        _accessPoints := length (mapObjects d);
        _accessPointsSubject := length (mapObjects d) :: _accessPointsSubject d;
        _bssListeners := _bssListeners d;
        _bssPathMap := _bssPathMap d;
        _accessPointPathMap :=
          <[apPath := raw_HwAddress raw]>
            (<[raw_HwAddress raw := apPath]> (_accessPointPathMap d));
        _bssInterfaces := _bssInterfaces d |}).
Proof. reflexivity. Qed.

Lemma accessPointsOf_elem (d : WifiDevice) :
  well_formed d -> accessPointsOf d ∈ mapObjects d.
Proof.
  intros [Hcurrent _]. unfold accessPointsOf.
  destruct (lookup_lt_is_Some_2 (mapObjects d) (_accessPoints d) Hcurrent) as [m Hm].
  rewrite Hm. eapply list_elem_of_lookup_2. exact Hm.
Qed.

Lemma accessPointsOf_valid (d : WifiDevice) (q : string) (r : nat) :
  well_formed d -> accessPointsOf d !! q = Some r ->
  (r < length (recordObjects d))%nat.
Proof.
  intros Hwf Hr. destruct Hwf as [Hcurrent Hrefs].
  eapply Hrefs; [| exact Hr]. apply accessPointsOf_elem. split; assumption.
Qed.

(** Reading through a reference that existed before map objects and
    record objects were added at the end. *)
Lemma snapshotAt_grown (d d' : WifiDevice) (ms : list AccessPointMap)
    (rs : list AccessPointProperties) (ref : nat) :
  well_formed d ->
  mapObjects d' = mapObjects d ++ ms ->
  recordObjects d' = recordObjects d ++ rs ->
  (ref < length (mapObjects d))%nat ->
  snapshotAt d' ref = snapshotAt d ref.
Proof.
  intros [_ Hrefs] Hmaps Hrecs Href. unfold snapshotAt.
  rewrite Hmaps, Hrecs, lookup_app_l by exact Href.
  destruct (mapObjects d !! ref) as [m |] eqn:Hm; [| reflexivity]. cbn.
  apply map_eq. intros q. rewrite !lookup_omap.
  destruct (m !! q) as [r |] eqn:Hr; [| reflexivity]. cbn.
  apply lookup_app_l. eapply Hrefs; [| exact Hr].
  eapply list_elem_of_lookup_2. exact Hm.
Qed.

Lemma well_formed_fields (d d' : WifiDevice) :
  mapObjects d' = mapObjects d -> _accessPoints d' = _accessPoints d ->
  length (recordObjects d') = length (recordObjects d) ->
  well_formed d -> well_formed d'.
Proof.
  unfold well_formed. intros -> -> ->. auto.
Qed.

Lemma onAccessPointAdded_well_formed apPath fetched d :
  well_formed d -> well_formed (onAccessPointAdded apPath fetched d).2.
Proof.
  intros Hwf. destruct fetched as [raw | error].
  - rewrite onAccessPointAdded_eq. cbn [snd]. split; cbn.
    + rewrite List.length_app. cbn. lia.
    + intros m q r Hm Hr. rewrite List.length_app. cbn.
      apply elem_of_app in Hm as [Hm | Hm].
      * destruct Hwf as [_ Hrefs]. specialize (Hrefs m q r Hm Hr). lia.
      * apply list_elem_of_singleton in Hm. subst m.
        apply lookup_insert_Some in Hr as [[_ <-] | [_ Hr]]; [lia |].
        pose proof (accessPointsOf_valid d q r Hwf Hr). lia.
  - eapply well_formed_fields; [| | | exact Hwf]; reflexivity.
Qed.

Lemma onAccessPointRemoved_well_formed apPath d :
  well_formed d -> well_formed (onAccessPointRemoved apPath d).2.
Proof.
  intros Hwf. rewrite onAccessPointRemoved_eq. cbn [snd]. split; cbn.
  - rewrite List.length_app. cbn. lia.
  - intros m q r Hm Hr.
    apply elem_of_app in Hm as [Hm | Hm].
    + destruct Hwf as [_ Hrefs]. exact (Hrefs m q r Hm Hr).
    + apply list_elem_of_singleton in Hm. subst m.
      apply lookup_delete_Some in Hr as [_ Hr].
      exact (accessPointsOf_valid d q r Hwf Hr).
Qed.

Lemma step_well_formed (d : WifiDevice) (ev : Event) :
  well_formed d -> well_formed (step d ev).
Proof.
  intros Hwf. unfold step.
  destruct ev as [apPath fetched | apPath | bssPath BSSID proxy | bssPath | l params readFile];
    cbn [deliver].
  - apply onAccessPointAdded_well_formed, Hwf.
  - apply onAccessPointRemoved_well_formed, Hwf.
  - destruct (onBSSAdded_publication bssPath BSSID proxy d) as (Hc & _ & Hm).
    eapply well_formed_fields; [exact Hm | exact Hc | | exact Hwf].
    unfold onBSSAdded, _listenForBssPropertyChanges, bind, this, modify, ret,
      console_error, listenSignal.
    destruct proxy; cbn; [| reflexivity].
    rewrite lookup_insert_eq. reflexivity.
  - destruct (onBSSRemoved_publication bssPath d) as (Hc & _ & Hm).
    eapply well_formed_fields; [exact Hm | exact Hc | | exact Hwf].
    unfold onBSSRemoved, bind, this, modify, ret, unsubscribe.
    destruct (_bssPathMap d !! bssPath); cbn;
      destruct (_bssListeners d !! bssPath); reflexivity.
  - unfold bind, this. cbn.
    destruct (signalListeners d !! l) as [listener |]; [| exact Hwf].
    destruct (live listener); [| exact Hwf].
    destruct (onBssPropertiesChanged_frame (closure_bssid listener) params readFile d)
      as ((Hc & _ & Hm) & Hlen & _).
    eapply well_formed_fields; [exact Hm | exact Hc | exact Hlen | exact Hwf].
Qed.

Lemma run_well_formed (evs : list Event) (d : WifiDevice) :
  well_formed d -> well_formed (run d evs).
Proof.
  revert d. induction evs as [| ev evs IH]; intros d Hwf; [exact Hwf |].
  apply IH, step_well_formed, Hwf.
Qed.

Lemma blank_well_formed : well_formed Scenario.blank.
Proof.
  split; [vm_compute; lia |].
  intros m q r Hm. change (mapObjects Scenario.blank) with [(∅ : AccessPointMap)] in Hm.
  apply list_elem_of_singleton in Hm. subst m. rewrite lookup_empty. discriminate.
Qed.

Lemma accessPointsOf_pushed (recs : list AccessPointProperties)
    (maps : list AccessPointMap) (m : AccessPointMap) (ls : list Listener)
    (log : list string) (subject : list nat) (handles : gmap string nat)
    (bssPaths apPaths : gmap string string)
    (interfaces : gmap string ClientInterface) :
  accessPointsOf
    {| recordObjects := recs; mapObjects := maps ++ [m]; signalListeners := ls;
       console := log; _accessPoints := length maps;
       _accessPointsSubject := subject; _bssListeners := handles;
       _bssPathMap := bssPaths; _accessPointPathMap := apPaths;
       _bssInterfaces := interfaces |}
  = m.
Proof.
  unfold accessPointsOf. cbn. rewrite list_lookup_middle by reflexivity.
  reflexivity.
Qed.

Lemma snapshot_after_added (apPath : string) (raw : RawAccessPointProperties)
    (d : WifiDevice) (q : string) :
  well_formed d ->
  let d' := (onAccessPointAdded apPath (Ok raw) d).2 in
  snapshotAt d' (accessPoints d') !! q
  = if decide (apPath = q) then Some (decodeSsid raw)
    else snapshotAt d (accessPoints d) !! q.
Proof.
  intros Hwf. cbv zeta. rewrite onAccessPointAdded_eq. cbn [snd].
  rewrite !snapshotAt_current, accessPointsOf_pushed. cbn [recordObjects].
  rewrite lookup_insert. case_decide as Hq.
  - cbn. apply list_lookup_middle. reflexivity.
  - destruct (accessPointsOf d !! q) as [r |] eqn:Hr; [| reflexivity]. cbn.
    apply lookup_app_l. eapply accessPointsOf_valid; eassumption.
Qed.

(** X11: on a device without dangling references, a successful
    AccessPointAdded(p) completes normally and emits once; afterwards the
    snapshot holds at p the fetched properties with the SSID decoded and
    every other path reads as before; the index maps p to the hardware
    address and (unless the two strings coincide) the address to p, and
    no other index entry changes. *)
Theorem accessPointAdded_inserts (apPath : string)
    (raw : RawAccessPointProperties) (d : WifiDevice) :
  well_formed d ->
  let d' := (onAccessPointAdded apPath (Ok raw) d).2 in
  (onAccessPointAdded apPath (Ok raw) d).1 = Ok tt
  /\ emissions d d' = 1
  /\ snapshotAt d' (accessPoints d') !! apPath = Some (decodeSsid raw)
  /\ (forall q, q <> apPath ->
        snapshotAt d' (accessPoints d') !! q = snapshotAt d (accessPoints d) !! q)
  /\ _accessPointPathMap d' !! apPath = Some (raw_HwAddress raw)
  /\ (raw_HwAddress raw <> apPath ->
      _accessPointPathMap d' !! raw_HwAddress raw = Some apPath)
  /\ (forall k, k <> apPath -> k <> raw_HwAddress raw ->
        _accessPointPathMap d' !! k = _accessPointPathMap d !! k).
Proof.
  intros Hwf. cbv zeta.
  split; [reflexivity |].
  split; [unfold emissions; cbn; lia |].
  split; [rewrite snapshot_after_added by exact Hwf; apply decide_True; reflexivity |].
  split.
  { intros q Hq. rewrite snapshot_after_added by exact Hwf.
    apply decide_False. congruence. }
  rewrite onAccessPointAdded_eq. cbn [snd _accessPointPathMap].
  split; [apply lookup_insert_eq |]. split.
  - intros Hne. rewrite lookup_insert_ne by congruence. apply lookup_insert_eq.
  - intros k Hk1 Hk2. rewrite !lookup_insert_ne by congruence. reflexivity.
Qed.

Lemma accessPointAdded_inserts_witness :
  let d' := (onAccessPointAdded "/ap/1" (Ok Scenario.home) Scenario.blank).2 in
  snapshotAt d' (accessPoints d') !! "/ap/1" = Some (decodeSsid Scenario.home).
Proof.
  apply (accessPointAdded_inserts "/ap/1" Scenario.home Scenario.blank).
  apply blank_well_formed.
Defined.

(** X12: adding an access point that is new to the device (no record at
    its path, no index entry at its path or at its hardware address) and
    then removing it gives back the snapshot and the index the device had,
    after two emissions. *)
Theorem added_then_removed_restores (apPath : string)
    (raw : RawAccessPointProperties) (d : WifiDevice) :
  well_formed d ->
  accessPointsOf d !! apPath = None ->
  _accessPointPathMap d !! apPath = None ->
  _accessPointPathMap d !! raw_HwAddress raw = None ->
  let d' := run d [AccessPointAdded apPath (Ok raw); AccessPointRemoved apPath] in
  snapshotAt d' (accessPoints d') = snapshotAt d (accessPoints d)
  /\ _accessPointPathMap d' = _accessPointPathMap d
  /\ emissions d d' = 2.
Proof.
  intros Hwf Hrecord Hpath Haddress. cbv zeta. unfold run, step. cbn [foldl deliver].
  set (d1 := (onAccessPointAdded apPath (Ok raw) d).2).
  assert (well_formed d1) as Hwf1 by (apply onAccessPointAdded_well_formed, Hwf).
  rewrite onAccessPointRemoved_eq. cbn [snd]. split; [| split].
  - apply map_eq. intros q. rewrite !snapshotAt_current, accessPointsOf_pushed.
    cbn [recordObjects]. rewrite lookup_delete.
    case_decide as Hq.
    + subst q. rewrite Hrecord. reflexivity.
    + pose proof (snapshot_after_added apPath raw d q Hwf) as Hsnapshot.
      cbv zeta in Hsnapshot. fold d1 in Hsnapshot.
      rewrite snapshotAt_current in Hsnapshot.
      rewrite Hsnapshot, decide_False by exact Hq. apply snapshotAt_current.
  - cbn [_accessPointPathMap]. unfold d1. rewrite onAccessPointAdded_eq.
    cbn [snd _accessPointPathMap]. rewrite lookup_insert_eq.
    apply map_eq. intros k. rewrite !lookup_delete, !lookup_insert.
    repeat case_decide; subst; congruence.
  - unfold emissions, d1. rewrite onAccessPointAdded_eq. cbn. lia.
Qed.

Lemma added_then_removed_restores_witness :
  let d' := run Scenario.blank
              [AccessPointAdded "/ap/1" (Ok Scenario.home); AccessPointRemoved "/ap/1"] in
  snapshotAt d' (accessPoints d') = snapshotAt Scenario.blank (accessPoints Scenario.blank)
  /\ _accessPointPathMap d' = _accessPointPathMap Scenario.blank
  /\ emissions Scenario.blank d' = 2.
Proof.
  apply (added_then_removed_restores "/ap/1" Scenario.home Scenario.blank);
    [apply blank_well_formed | vm_compute; reflexivity ..].
Defined.

(** X13: a second AccessPointRemoved for the same path changes neither
    the snapshot nor the index, and completes normally; it still emits a
    snapshot of its own. *)
Theorem accessPointRemoved_twice (apPath : string) (d : WifiDevice) :
  let d1 := step d (AccessPointRemoved apPath) in
  let d2 := step d1 (AccessPointRemoved apPath) in
  (deliver (AccessPointRemoved apPath) d1).1 = Ok tt
  /\ snapshotAt d2 (accessPoints d2) = snapshotAt d1 (accessPoints d1)
  /\ _accessPointPathMap d2 = _accessPointPathMap d1
  /\ emissions d1 d2 = 1.
Proof.
  cbv zeta. unfold step. cbn [deliver].
  set (d1 := (onAccessPointRemoved apPath d).2).
  assert (accessPointsOf d1 = delete apPath (accessPointsOf d)) as Hcurrent.
  { unfold d1. rewrite onAccessPointRemoved_eq. cbn [snd].
    apply accessPointsOf_pushed. }
  assert (_accessPointPathMap d1 !! apPath = None) as Hgone.
  { unfold d1. rewrite onAccessPointRemoved_eq. cbn [snd _accessPointPathMap].
    destruct (_accessPointPathMap d !! apPath);
      rewrite ?lookup_delete; repeat case_decide; congruence. }
  rewrite (onAccessPointRemoved_eq apPath d1). cbn [fst snd].
  split; [reflexivity |]. split; [| split].
  - apply map_eq. intros q. rewrite !snapshotAt_current, accessPointsOf_pushed.
    cbn [recordObjects]. rewrite Hcurrent, delete_delete_eq. reflexivity.
  - cbn [_accessPointPathMap]. rewrite Hgone. apply delete_id, Hgone.
  - unfold emissions. cbn. lia.
Qed.

(** *** Emissions over a run *)

Lemma step_emissions (d : WifiDevice) (ev : Event) :
  _accessPointsSubject (step d ev)
  = if emits ev then length (mapObjects d) :: _accessPointsSubject d
    else _accessPointsSubject d.
Proof.
  unfold step.
  destruct ev as [apPath [raw | error] | apPath | bssPath BSSID proxy | bssPath | l params readFile];
    cbn [deliver emits].
  - reflexivity.
  - reflexivity.
  - rewrite onAccessPointRemoved_eq. reflexivity.
  - apply (onBSSAdded_publication bssPath BSSID proxy d).
  - apply (onBSSRemoved_publication bssPath d).
  - unfold bind, this. cbn.
    destruct (signalListeners d !! l) as [listener |]; [| reflexivity].
    destruct (live listener); [| reflexivity].
    apply (onBssPropertiesChanged_publication (closure_bssid listener) params readFile d).
Qed.

(** X14: over any sequence of events on any device, the number of
    snapshots emitted is the number of AccessPointRemoved events plus the
    number of AccessPointAdded events whose properties could be fetched:
    each of those emits exactly once, and no BSS event, property change or
    failed fetch emits at all. *)
Theorem emissions_of_run (evs : list Event) (d : WifiDevice) :
  emissions d (run d evs)
  = Z.of_nat (length (filter (fun ev => emits ev = true) evs)).
Proof.
  unfold emissions. revert d.
  induction evs as [| ev evs IH]; intros d; [cbn; lia |].
  cbn [run foldl]. fold (run (step d ev) evs).
  rewrite filter_cons. specialize (IH (step d ev)).
  rewrite step_emissions in IH.
  destruct (emits ev) eqn:Hev; case_decide; try congruence; cbn in *; lia.
Qed.

(** *** Snapshots that were already handed out *)

Lemma step_grows (d : WifiDevice) (ev : Event) :
  isPropertiesChanged ev = false ->
  exists ms rs,
    mapObjects (step d ev) = mapObjects d ++ ms
    /\ recordObjects (step d ev) = recordObjects d ++ rs.
Proof.
  intros Hev. unfold step.
  destruct ev as [apPath [raw | error] | apPath | bssPath BSSID proxy | bssPath | l params readFile];
    cbn [deliver]; try discriminate.
  - eexists _, _. split; reflexivity.
  - exists [], []. rewrite !app_nil_r. split; reflexivity.
  - rewrite onAccessPointRemoved_eq.
    exists [delete apPath (accessPointsOf d)], []. rewrite app_nil_r.
    split; reflexivity.
  - exists [], []. rewrite !app_nil_r.
    destruct (onBSSAdded_publication bssPath BSSID proxy d) as (_ & _ & Hm).
    split; [exact Hm |].
    unfold onBSSAdded, _listenForBssPropertyChanges, bind, this, modify, ret,
      console_error, listenSignal.
    destruct proxy; cbn; [| reflexivity]. rewrite lookup_insert_eq. reflexivity.
  - exists [], []. rewrite !app_nil_r.
    destruct (onBSSRemoved_publication bssPath d) as (_ & _ & Hm).
    split; [exact Hm |].
    unfold onBSSRemoved, bind, this, modify, ret, unsubscribe.
    destruct (_bssPathMap d !! bssPath); cbn;
      destruct (_bssListeners d !! bssPath); reflexivity.
Qed.

(** X15: add and remove events never change a snapshot that was already
    handed out. On a device without dangling references, after any
    sequence of events that contains no property change, every map object
    that existed before reads exactly as it did. *)
Theorem earlier_snapshots_unchanged (evs : list Event) (d : WifiDevice) (ref : nat) :
  well_formed d ->
  Forall (fun ev => isPropertiesChanged ev = false) evs ->
  (ref < length (mapObjects d))%nat ->
  snapshotAt (run d evs) ref = snapshotAt d ref.
Proof.
  revert d. induction evs as [| ev evs IH]; intros d Hwf Hevs Href; [reflexivity |].
  apply Forall_cons in Hevs as [Hev Hevs]. cbn [run foldl]. fold (run (step d ev) evs).
  destruct (step_grows d ev Hev) as (ms & rs & Hmaps & Hrecs).
  rewrite IH.
  - eapply snapshotAt_grown; eassumption.
  - apply step_well_formed, Hwf.
  - exact Hevs.
  - rewrite Hmaps, List.length_app. lia.
Qed.

Lemma earlier_snapshots_unchanged_witness :
  snapshotAt
    (run Scenario.blank
       [AccessPointAdded "/ap/1" (Ok Scenario.home); AccessPointRemoved "/ap/1"]) 0
  = snapshotAt Scenario.blank 0.
Proof.
  apply (earlier_snapshots_unchanged
           [AccessPointAdded "/ap/1" (Ok Scenario.home); AccessPointRemoved "/ap/1"]
           Scenario.blank 0).
  - apply blank_well_formed.
  - repeat constructor.
  - vm_compute. lia.
Defined.

End Registry.

(** ** The identity index against the registry *)

(** Walks a handler body: sequencing, branching on what was read, and
    leaves the primitive updates to [tac]. *)
Ltac walk tac :=
  repeat first
    [ assumption
    | match goal with |- forall _, _ => intro end
    | simple apply preserves_ret
    | simple apply preserves_throw
    | simple apply preserves_this
    | simple apply preserves_bind
    | simple apply preserves_forEach
    | simple apply preserves_modify
    | progress cbv beta zeta
    | case_match
    | solve [tac] ].

Section Index.

Lemma bss_frame_refl (d : WifiDevice) : bss_frame d d.
Proof. repeat split. Qed.

Lemma bss_frame_trans (d1 d2 d3 : WifiDevice) :
  bss_frame d1 d2 -> bss_frame d2 d3 -> bss_frame d1 d3.
Proof.
  intros [H12 Hi12] [H23 Hi23]. split; [| congruence].
  eapply same_registry_trans; eassumption.
Qed.

Lemma onBSSAdded_frame bssPath BSSID proxy :
  preserves bss_frame (onBSSAdded bssPath BSSID proxy).
Proof.
  pose proof bss_frame_refl. pose proof bss_frame_trans.
  unfold onBSSAdded, _listenForBssPropertyChanges, console_error, listenSignal.
  walk ltac:(repeat split).
Qed.

Lemma onBSSRemoved_frame bssPath : preserves bss_frame (onBSSRemoved bssPath).
Proof.
  pose proof bss_frame_refl. pose proof bss_frame_trans.
  unfold onBSSRemoved, unsubscribe.
  walk ltac:(repeat split).
Qed.

Lemma slash_apart (a b : string) :
  startsWithSlash a = true -> startsWithSlash b = false -> a <> b.
Proof. intros Ha Hb ->. congruence. Qed.

Lemma index_agrees_alt (d : WifiDevice) :
  index_agrees d
  <-> forall q r p,
        accessPointsOf d !! q = Some r -> recordObjects d !! r = Some p ->
        _accessPointPathMap d !! q = Some (HwAddress p).
Proof.
  unfold index_agrees. split.
  - intros Hagree q r p Hr Hp. apply Hagree.
    rewrite snapshotAt_current, Hr. exact Hp.
  - intros Hagree q p. rewrite snapshotAt_current. intros Hq.
    apply bind_Some in Hq as (r & Hr & Hp). eauto.
Qed.

(** The two invariants depend on the current map, the index and the
    hardware addresses of the record objects only. *)
Lemma index_invariants_fields (d d' : WifiDevice) :
  mapObjects d' = mapObjects d -> _accessPoints d' = _accessPoints d ->
  _accessPointPathMap d' = _accessPointPathMap d ->
  (forall r p', recordObjects d' !! r = Some p' ->
     exists p, recordObjects d !! r = Some p /\ HwAddress p' = HwAddress p) ->
  paths_apart d -> index_agrees d -> paths_apart d' /\ index_agrees d'.
Proof.
  intros Hm Hc Hi Hrecs Hapart Hagree.
  assert (accessPointsOf d' = accessPointsOf d) as Hcur
    by (unfold accessPointsOf; rewrite Hm, Hc; reflexivity).
  split.
  - unfold paths_apart. rewrite Hcur, Hi. exact Hapart.
  - apply (proj2 (index_agrees_alt d')). intros q r p' Hr Hp'. rewrite Hcur in Hr. rewrite Hi.
    destruct (Hrecs r p' Hp') as (p & Hp & ->).
    pose proof (proj1 (index_agrees_alt d) Hagree) as Halt. eauto.
Qed.

Lemma step_index_invariants (d : WifiDevice) (ev : Event) :
  well_formed d -> paths_apart d -> index_agrees d -> separates ev ->
  paths_apart (step d ev) /\ index_agrees (step d ev).
Proof.
  intros Hwf Hapart Hagree Hev. unfold step.
  destruct ev as [apPath [raw | error] | apPath | bssPath BSSID proxy | bssPath | l params readFile];
    cbn [deliver separates] in *.
  - destruct Hev as [Hpath Haddress]. destruct Hapart as [Hkeys Hvalues].
    rewrite onAccessPointAdded_eq. cbn [snd]. split; [split |].
    + rewrite accessPointsOf_pushed. intros q [r Hq].
      apply lookup_insert_Some in Hq as [[<- _] | [_ Hq]]; [exact Hpath |].
      apply Hkeys. eauto.
    + cbn [_accessPointPathMap]. intros k v Hk Hslash.
      apply lookup_insert_Some in Hk as [[<- <-] | [_ Hk]]; [exact Haddress |].
      apply lookup_insert_Some in Hk as [[<- <-] | [_ Hk]]; [congruence |].
      eapply Hvalues; eassumption.
    + apply (proj2 (index_agrees_alt _)). intros q r p. rewrite accessPointsOf_pushed.
      cbn [recordObjects _accessPointPathMap]. intros Hr Hp.
      apply lookup_insert_Some in Hr as [[<- <-] | [Hne Hr]].
      * rewrite list_lookup_middle in Hp by reflexivity. injection Hp as <-.
        apply lookup_insert_eq.
      * rewrite lookup_app_l in Hp by (eapply accessPointsOf_valid; eassumption).
        rewrite !lookup_insert_ne.
        -- pose proof (proj1 (index_agrees_alt d) Hagree) as Halt. eauto.
        -- apply not_eq_sym, slash_apart; [apply Hkeys; eauto | exact Haddress].
        -- exact Hne.
  - apply (index_invariants_fields d); auto. intros r p' Hp'. eauto.
  - destruct Hapart as [Hkeys Hvalues].
    rewrite onAccessPointRemoved_eq. cbn [snd].
    assert (forall k v,
              match _accessPointPathMap d !! apPath with
              | Some bssid => delete bssid (delete apPath (_accessPointPathMap d))
              | None => delete apPath (_accessPointPathMap d)
              end !! k = Some v -> _accessPointPathMap d !! k = Some v) as Hsub.
    { intros k v. destruct (_accessPointPathMap d !! apPath);
        rewrite ?lookup_delete_Some; tauto. }
    split; [split |].
    + rewrite accessPointsOf_pushed. intros q [r Hq].
      apply lookup_delete_Some in Hq as [_ Hq]. apply Hkeys. eauto.
    + cbn [_accessPointPathMap]. intros k v Hk. apply Hsub in Hk.
      eapply Hvalues. exact Hk.
    + apply (proj2 (index_agrees_alt _)). intros q r p. rewrite accessPointsOf_pushed.
      cbn [recordObjects _accessPointPathMap]. intros Hr Hp.
      apply lookup_delete_Some in Hr as [Hne Hr].
      pose proof (proj1 (index_agrees_alt d) Hagree q r p Hr Hp) as Halt.
      destruct (_accessPointPathMap d !! apPath) as [bssid |] eqn:Hbssid.
      * rewrite !lookup_delete_ne; [exact Halt | exact Hne |].
        apply not_eq_sym, slash_apart; [apply Hkeys; eauto |].
        eapply Hvalues; eassumption.
      * rewrite lookup_delete_ne by exact Hne. exact Halt.
  - destruct (onBSSAdded_frame bssPath BSSID proxy d) as (((Hc & _ & Hm) & Hr) & Hi).
    apply (index_invariants_fields d); auto. rewrite Hr. eauto.
  - destruct (onBSSRemoved_frame bssPath d) as (((Hc & _ & Hm) & Hr) & Hi).
    apply (index_invariants_fields d); auto. rewrite Hr. eauto.
  - unfold bind, this. cbn.
    destruct (signalListeners d !! l) as [listener |]; [| split; assumption].
    destruct (live listener); [| split; assumption].
    destruct (onBssPropertiesChanged_frame (closure_bssid listener) params readFile d)
      as ((Hc & _ & Hm) & Hlen & Hid & _ & _ & _ & Hi & _).
    apply (index_invariants_fields d); auto.
    intros r p' Hp'.
    destruct (lookup_lt_is_Some_2 (recordObjects d) r) as [p Hp].
    { rewrite <- Hlen. eapply lookup_lt_Some. exact Hp'. }
    exists p. split; [exact Hp |]. apply (Hid r p p' Hp Hp').
Qed.

Lemma run_index_invariants (evs : list Event) (d : WifiDevice) :
  well_formed d -> paths_apart d -> index_agrees d ->
  Forall separates evs ->
  index_agrees (run d evs).
Proof.
  revert d. induction evs as [| ev evs IH]; intros d Hwf Hapart Hagree Hevs.
  - exact Hagree.
  - apply Forall_cons in Hevs as [Hev Hevs]. cbn [run foldl]. fold (run (step d ev) evs).
    destruct (step_index_invariants d ev Hwf Hapart Hagree Hev) as [Hapart' Hagree'].
    apply IH; auto using step_well_formed.
Qed.

(** X16: the path-to-address direction of the access-point index follows
    the registry. Starting from a device where every record of the
    snapshot is indexed under its path by its own hardware address, and as
    long as events name object paths (beginning with a slash) and hardware
    addresses that are not, this stays so after every sequence of events. *)
Theorem index_follows_registry (evs : list Event) (d : WifiDevice) :
  well_formed d -> paths_apart d -> index_agrees d ->
  Forall separates evs ->
  forall q p,
    snapshotAt (run d evs) (accessPoints (run d evs)) !! q = Some p ->
    _accessPointPathMap (run d evs) !! q = Some (HwAddress p).
Proof.
  intros Hwf Hapart Hagree Hevs. apply run_index_invariants; assumption.
Qed.

Lemma index_follows_registry_witness :
  let d' :=
    run Scenario.blank
      [AccessPointAdded "/ap/1" (Ok Scenario.home);
       BSSAdded "/bss/1" Scenario.bssidBytes (Ok "/bss/1");
       PropertiesChanged 0 Scenario.ageAndFrequency (Ok "100.25 17.3");
       AccessPointAdded "/ap/1" (Ok Scenario.moved)] in
  _accessPointPathMap d' !! "/ap/1" = Some "11:22:33:44:55:66".
Proof.
  refine (index_follows_registry _ Scenario.blank blank_well_formed _ _ _
            "/ap/1" (decodeSsid Scenario.moved) _).
  - split.
    + intros q [r Hq]. vm_compute in Hq. discriminate.
    + intros k v Hk. vm_compute in Hk. discriminate.
  - intros q p Hq. vm_compute in Hq. discriminate.
  - repeat constructor.
  - vm_compute. reflexivity.
Defined.

(** X17: the address-to-path direction does not follow. When a path is
    announced again under another hardware address and then removed, the
    index still sends the first address to that path although the
    snapshot has no record there. *)
Theorem readded_path_leaves_stale_address (apPath : string)
    (first second : RawAccessPointProperties) (d : WifiDevice) :
  raw_HwAddress first <> raw_HwAddress second ->
  raw_HwAddress first <> apPath ->
  let d' :=
    run d [AccessPointAdded apPath (Ok first); AccessPointAdded apPath (Ok second);
           AccessPointRemoved apPath] in
  _accessPointPathMap d' !! raw_HwAddress first = Some apPath
  /\ snapshotAt d' (accessPoints d') !! apPath = None.
Proof.
  intros Haddress Hpath. cbv zeta. unfold run, step. cbn [foldl deliver].
  rewrite !onAccessPointRemoved_eq, !onAccessPointAdded_eq. cbn [snd]. split.
  - cbn [_accessPointPathMap]. rewrite lookup_insert_eq.
    rewrite !lookup_delete_ne, !lookup_insert_ne by congruence.
    apply lookup_insert_eq.
  - rewrite snapshotAt_current, (accessPointsOf_pushed _ _ (delete apPath _)).
    rewrite lookup_delete_eq. reflexivity.
Qed.

Lemma readded_path_leaves_stale_address_witness :
  let d' :=
    run Scenario.device
      [AccessPointAdded "/ap/1" (Ok Scenario.home);
       AccessPointAdded "/ap/1" (Ok Scenario.moved); AccessPointRemoved "/ap/1"] in
  _accessPointPathMap d' !! "AA:BB:CC:DD:EE:FF" = Some "/ap/1"
  /\ snapshotAt d' (accessPoints d') !! "/ap/1" = None.
Proof.
  apply (readded_path_leaves_stale_address "/ap/1" Scenario.home Scenario.moved
           Scenario.device); discriminate.
Defined.

End Index.

(** ** Subscriptions *)

Section Subscriptions.

(** What the BSSAdded handler makes of the device when the proxy
    interface was obtained. *)
Lemma onBSSAdded_eq (bssPath : string) (BSSID : list Z)
    (bssInterface : ClientInterface) (d : WifiDevice) :
  onBSSAdded bssPath BSSID (Ok bssInterface) d
  = (Ok tt,
     {| recordObjects := recordObjects d;
        mapObjects := mapObjects d;
        signalListeners :=
          signalListeners d
          ++ [{| on_interface := bssInterface;
                 closure_bssid := Util.formatMacAddress BSSID; live := true |}];
        console := console d;
        _accessPoints := _accessPoints d;
        _accessPointsSubject := _accessPointsSubject d;
        _bssListeners :=
          <[Util.formatMacAddress BSSID := length (signalListeners d)]>
            (_bssListeners d);
        _bssPathMap :=
          <[bssPath := Util.formatMacAddress BSSID]>
            (<[Util.formatMacAddress BSSID := bssPath]> (_bssPathMap d));
        _accessPointPathMap := _accessPointPathMap d;
        _bssInterfaces :=
          <[Util.formatMacAddress BSSID := bssInterface]> (_bssInterfaces d) |}).
Proof.
  unfold onBSSAdded, _listenForBssPropertyChanges, bind, this, modify, listenSignal.
  cbn. rewrite lookup_insert_eq. reflexivity.
Qed.

Lemma bssPathMap_after_removed (bssPath : string) (d : WifiDevice) :
  _bssPathMap (onBSSRemoved bssPath d).2
  = match _bssPathMap d !! bssPath with
    | Some bssid => delete bssid (delete bssPath (_bssPathMap d))
    | None => delete bssPath (_bssPathMap d)
    end.
Proof.
  unfold onBSSRemoved, bind, this, modify, ret, unsubscribe.
  destruct (_bssPathMap d !! bssPath); cbn;
    destruct (_bssListeners d !! bssPath); reflexivity.
Qed.

(** X18: every BSSAdded whose proxy interface is obtained completes
    normally and adds one live subscription for the identity, recorded
    under the identity. The subscriptions that were live stay live, those
    of the same identity included: when the identity already had one, it
    now has two, and only the new one is recorded. Both directions of the
    BSS index and the interface are recorded. *)
Theorem bssAdded_adds_subscription (bssPath : string) (BSSID : list Z)
    (bssInterface : ClientInterface) (d : WifiDevice) :
  let bssid := Util.formatMacAddress BSSID in
  let listener :=
    {| on_interface := bssInterface; closure_bssid := bssid; live := true |} in
  let d' := (onBSSAdded bssPath BSSID (Ok bssInterface) d).2 in
  (onBSSAdded bssPath BSSID (Ok bssInterface) d).1 = Ok tt
  /\ liveSubscriptions d' bssid = liveSubscriptions d bssid ++ [listener]
  /\ (forall other, other <> bssid ->
        liveSubscriptions d' other = liveSubscriptions d other)
  /\ _bssListeners d' !! bssid = Some (length (signalListeners d))
  /\ signalListeners d' !! length (signalListeners d) = Some listener
  /\ _bssPathMap d' !! bssPath = Some bssid
  /\ (bssid <> bssPath -> _bssPathMap d' !! bssid = Some bssPath)
  /\ _bssInterfaces d' !! bssid = Some bssInterface.
Proof.
  cbv zeta. rewrite onBSSAdded_eq. cbn [fst snd]. unfold liveSubscriptions.
  cbn [signalListeners _bssListeners _bssPathMap _bssInterfaces].
  split; [reflexivity |]. split; [| split].
  - rewrite filter_app, filter_cons_True, filter_nil; [reflexivity |].
    split; reflexivity.
  - intros other Hother.
    rewrite filter_app, filter_cons_False, filter_nil, app_nil_r; [reflexivity |].
    cbn. intros [_ Heq]. congruence.
  - split; [apply lookup_insert_eq |].
    split; [apply list_lookup_middle; reflexivity |].
    split; [apply lookup_insert_eq |]. split; [| apply lookup_insert_eq].
    intros Hne. rewrite lookup_insert_ne by congruence. apply lookup_insert_eq.
Qed.

Lemma step_handles (d : WifiDevice) (ev : Event) :
  handles_by_identity d -> separates ev ->
  handles_by_identity (step d ev)
  /\ exists added, signalListeners (step d ev) = signalListeners d ++ added.
Proof.
  intros Hhandles Hev. unfold step.
  destruct ev as [apPath [raw | error] | apPath | bssPath BSSID [bssInterface | error] | bssPath | l params readFile];
    cbn [deliver separates] in *.
  - split; [exact Hhandles |]. exists []. rewrite app_nil_r. reflexivity.
  - split; [exact Hhandles |]. exists []. rewrite app_nil_r. reflexivity.
  - rewrite onAccessPointRemoved_eq. cbn [snd].
    split; [exact Hhandles |]. exists []. rewrite app_nil_r. reflexivity.
  - rewrite onBSSAdded_eq. cbn [snd]. split; [| eexists; reflexivity].
    intros k [h Hk]. cbn [_bssListeners] in Hk.
    apply lookup_insert_Some in Hk as [[<- _] | [_ Hk]]; [apply Hev |].
    apply Hhandles. eauto.
  - split; [exact Hhandles |]. exists []. rewrite app_nil_r. reflexivity.
  - assert (_bssListeners d !! bssPath = None) as Hnone.
    { destruct (_bssListeners d !! bssPath) as [h |] eqn:Hh; [| reflexivity].
      assert (startsWithSlash bssPath = false) by (apply Hhandles; eauto).
      congruence. }
    destruct (onBSSRemoved_without_handle bssPath d Hnone) as [Hl Hh].
    split.
    + unfold handles_by_identity. rewrite Hh. exact Hhandles.
    + exists []. rewrite app_nil_r. exact Hl.
  - unfold bind, this. cbn.
    destruct (signalListeners d !! l) as [listener |];
      [| split; [exact Hhandles | exists []; rewrite app_nil_r; reflexivity]].
    destruct (live listener);
      [| split; [exact Hhandles | exists []; rewrite app_nil_r; reflexivity]].
    destruct (onBssPropertiesChanged_frame (closure_bssid listener) params readFile d)
      as (_ & _ & _ & Hl & Hh & _).
    split.
    + unfold handles_by_identity. rewrite Hh. exact Hhandles.
    + exists []. rewrite app_nil_r. exact Hl.
Qed.

(** X19: no subscription is ever cancelled. On a device whose handles are
    recorded under identities, and with events that name object paths
    (beginning with a slash) and identities that are not, every
    subscription of the device is still there, as live as it was, after
    any sequence of events, BSSRemoved events included. *)
Theorem subscriptions_are_never_cancelled (evs : list Event) (d : WifiDevice)
    (h : nat) (listener : Listener) :
  handles_by_identity d ->
  Forall separates evs ->
  signalListeners d !! h = Some listener ->
  signalListeners (run d evs) !! h = Some listener.
Proof.
  revert d. induction evs as [| ev evs IH]; intros d Hhandles Hevs Hh; [exact Hh |].
  apply Forall_cons in Hevs as [Hev Hevs]. cbn [run foldl]. fold (run (step d ev) evs).
  destruct (step_handles d ev Hhandles Hev) as (Hhandles' & added & Hadded).
  apply IH; [exact Hhandles' | exact Hevs |].
  rewrite Hadded. apply lookup_app_l_Some. exact Hh.
Qed.

Lemma device_handles_by_identity : handles_by_identity Scenario.device.
Proof.
  assert (_bssListeners Scenario.device
          = ({["AA:BB:CC:DD:EE:FF" := 0%nat]} : gmap string nat)) as Hhandles
    by (vm_compute; reflexivity).
  intros k [h Hk]. rewrite Hhandles in Hk.
  apply lookup_singleton_Some in Hk as [<- _]. reflexivity.
Qed.

Lemma subscriptions_are_never_cancelled_witness :
  signalListeners
    (run Scenario.device
       [BSSRemoved "/bss/1"; BSSAdded "/bss/1" Scenario.bssidBytes (Ok "/bss/1");
        BSSRemoved "/bss/1"])
    !! 0%nat
  = Some {| on_interface := "/bss/1"; closure_bssid := "AA:BB:CC:DD:EE:FF";
            live := true |}.
Proof.
  apply (subscriptions_are_never_cancelled
           [BSSRemoved "/bss/1"; BSSAdded "/bss/1" Scenario.bssidBytes (Ok "/bss/1");
            BSSRemoved "/bss/1"]
           Scenario.device).
  - apply device_handles_by_identity.
  - repeat constructor.
  - vm_compute. reflexivity.
Defined.

(** X20: once BSSRemoved has run for a path the BSS index resolved, the
    index has neither the path nor its identity, and every later property
    change delivered for that identity is dropped with the log line
    "bssPath not found": whatever it carries, no record is written, the
    uptime is not read and nothing is thrown. *)
Theorem changes_after_removal_are_dropped (bssPath bssid : string)
    (params : BssChanges) (readFile : result string) (d : WifiDevice) :
  _bssPathMap d !! bssPath = Some bssid ->
  let d1 := step d (BSSRemoved bssPath) in
  _bssPathMap d1 !! bssPath = None
  /\ _bssPathMap d1 !! bssid = None
  /\ onBssPropertiesChanged bssid params readFile d1
     = (Ok tt, upd_console (fun c => c ++ ["bssPath not found for " +:+ bssid]) d1).
Proof.
  intros Hbssid. cbv zeta. unfold step. cbn [deliver].
  pose proof (bssPathMap_after_removed bssPath d) as Hindex. rewrite Hbssid in Hindex.
  assert (_bssPathMap (onBSSRemoved bssPath d).2 !! bssid = None) as Hgone
    by (rewrite Hindex; apply lookup_delete_eq).
  split; [| split; [exact Hgone |]].
  - rewrite Hindex, lookup_delete. case_decide; [reflexivity |].
    apply lookup_delete_eq.
  - remember (onBSSRemoved bssPath d).2 as d1 eqn:Hd1. clear Hd1 Hindex.
    unfold onBssPropertiesChanged, bind, this. cbn. rewrite Hgone. reflexivity.
Qed.

Lemma changes_after_removal_are_dropped_witness :
  let d1 := step Scenario.device (BSSRemoved "/bss/1") in
  _bssPathMap d1 !! "/bss/1" = None
  /\ _bssPathMap d1 !! "AA:BB:CC:DD:EE:FF" = None
  /\ onBssPropertiesChanged "AA:BB:CC:DD:EE:FF" Scenario.ageAndFrequency
       (Ok "100.25 17.3") d1
     = (Ok tt,
        upd_console
          (fun c => c ++ ["bssPath not found for " +:+ "AA:BB:CC:DD:EE:FF"]) d1).
Proof.
  apply (changes_after_removal_are_dropped "/bss/1" "AA:BB:CC:DD:EE:FF"
           Scenario.ageAndFrequency (Ok "100.25 17.3") Scenario.device).
  vm_compute. reflexivity.
Defined.

(** *** Subscriptions made by the constructor *)

Lemma listenForBssPropertyChanges_eq (bssid : string)
    (bssInterface : ClientInterface) (d : WifiDevice) :
  _bssInterfaces d !! bssid = Some bssInterface ->
  _listenForBssPropertyChanges bssid d
  = (Ok tt,
     upd_bssListeners <[bssid := length (signalListeners d)]>
       (upd_signalListeners
          (fun ls => ls ++ [{| on_interface := bssInterface;
                               closure_bssid := bssid; live := true |}]) d)).
Proof.
  intros Hi. unfold _listenForBssPropertyChanges, bind, this, listenSignal, modify.
  cbn. rewrite Hi. reflexivity.
Qed.

Lemma forEach_listen (keys : list string) (d : WifiDevice) :
  (forall k, k ∈ keys -> is_Some (_bssInterfaces d !! k)) ->
  let d' := (forEach keys _listenForBssPropertyChanges d).2 in
  signalListeners d'
  = signalListeners d
    ++ ((fun k => {| on_interface := default "" (_bssInterfaces d !! k);
                     closure_bssid := k; live := true |}) <$> keys)
  /\ _bssInterfaces d' = _bssInterfaces d.
Proof.
  revert d. induction keys as [| k keys IH]; intros d Hkeys; cbv zeta.
  - cbn. rewrite app_nil_r. split; reflexivity.
  - destruct (Hkeys k) as [bssInterface Hk]; [left |].
    assert (forall d1,
               _listenForBssPropertyChanges k d = (Ok tt, d1) ->
               forEach (k :: keys) _listenForBssPropertyChanges d
               = forEach keys _listenForBssPropertyChanges d1) as Hcons.
    { intros d1 Hd1. cbn [forEach]. unfold bind. rewrite Hd1. reflexivity. }
    rewrite !(Hcons _ (listenForBssPropertyChanges_eq k bssInterface d Hk)).
    match goal with |- context [forEach keys _ ?d1] =>
      destruct (IH d1) as [Hlisteners Hinterfaces]
    end.
    { intros k' Hk'. cbn. apply Hkeys. right. exact Hk'. }
    rewrite Hlisteners, Hinterfaces.
    unfold upd_bssListeners, upd_signalListeners.
    cbn [signalListeners _bssInterfaces]. rewrite fmap_cons. cbv beta.
    unfold ClientInterface in *. rewrite Hk, <- app_assoc.
    split; reflexivity.
Qed.

Lemma live_among_keys (f : string -> ClientInterface) (keys : list string)
    (bssid : string) :
  NoDup keys ->
  filter (fun l => live l = true /\ closure_bssid l = bssid)
    ((fun k => {| on_interface := f k; closure_bssid := k; live := true |}) <$> keys)
  = if decide (bssid ∈ keys)
    then [{| on_interface := f bssid; closure_bssid := bssid; live := true |}]
    else [].
Proof.
  induction keys as [| k keys IH]; intros Hnodup.
  - cbn. rewrite decide_False by apply not_elem_of_nil. reflexivity.
  - apply NoDup_cons in Hnodup as [Hk Hnodup]. specialize (IH Hnodup).
    rewrite fmap_cons. destruct (decide (k = bssid)) as [-> | Hne].
    + rewrite filter_cons_True by (split; reflexivity).
      rewrite IH, decide_False by exact Hk.
      rewrite decide_True by left. reflexivity.
    + rewrite filter_cons_False by (cbn; intros [_ Heq]; congruence).
      rewrite IH. destruct (decide (bssid ∈ keys)) as [Hin | Hnin].
      * rewrite decide_True by (right; exact Hin). reflexivity.
      * rewrite decide_False; [reflexivity |]. intros Hin.
        apply elem_of_cons in Hin as [-> | Hin]; [congruence | contradiction].
Qed.

(** X21: construction subscribes exactly once per BSS interface it is
    given: in the new device an identity has one live subscription, on its
    interface, when the initial interface map has it, and none
    otherwise. *)
Theorem construction_subscribes_once (objects : list AccessPointProperties)
    (aps : AccessPointMap) (bssPaths apPaths : gmap string string)
    (interfaces : gmap string ClientInterface) (bssid : string) :
  liveSubscriptions (new_WifiDevice objects aps bssPaths apPaths interfaces) bssid
  = match interfaces !! bssid with
    | Some bssInterface =>
        [{| on_interface := bssInterface; closure_bssid := bssid; live := true |}]
    | None => []
    end.
Proof.
  unfold liveSubscriptions, new_WifiDevice, _listenForBss, bind, this.
  cbn [_bssInterfaces].
  match goal with |- context [forEach ?keys _ ?d0] =>
    destruct (forEach_listen keys d0) as [Hlisteners _]
  end.
  { intros k Hk. cbn. apply list_elem_of_fmap in Hk as ([k' v] & -> & Hkv).
    apply elem_of_map_to_list in Hkv. cbn. eauto. }
  rewrite Hlisteners. cbn [signalListeners _bssInterfaces app].
  rewrite (live_among_keys (fun k => default "" (interfaces !! k)))
    by apply NoDup_fst_map_to_list.
  case_decide as Hin.
  - apply list_elem_of_fmap in Hin as ([k' v] & Hk' & Hkv). cbn in Hk'. subst k'.
    apply elem_of_map_to_list in Hkv. unfold ClientInterface in *.
    rewrite Hkv. reflexivity.
  - destruct (interfaces !! bssid) as [bssInterface |] eqn:Hi; [| reflexivity].
    exfalso. apply Hin. apply list_elem_of_fmap.
    exists (bssid, bssInterface). split; [reflexivity |].
    apply elem_of_map_to_list. exact Hi.
Qed.

End Subscriptions.

(** ** Bootstrap and the index *)

Section BootstrapIndex.

Lemma getBSSs_access_point_side bus bss b b' :
  getBSSs bus bss b = Ok b' ->
  initialAccessPoints b' = initialAccessPoints b
  /\ initialObjects b' = initialObjects b
  /\ initialAccessPointPathMap b' = initialAccessPointPathMap b.
Proof.
  revert b. induction bss as [| bssPath rest IH]; intros b; simpl.
  - intros [= <-]. repeat split.
  - destruct (bss_interface bus bssPath) as [bssInterface |]; simpl; [| discriminate].
    destruct (bss_BSSID bus bssInterface) as [bssidArray |]; simpl; [| discriminate].
    intros Hrest. apply IH in Hrest. exact Hrest.
Qed.

Lemma getAccessPointDataFromPaths_indexed bus accessPoints b b' :
  (forall q raw,
     q ∈ accessPoints -> ap_properties bus q = Ok raw ->
     startsWithSlash q = true /\ startsWithSlash (raw_HwAddress raw) = false) ->
  getAccessPointDataFromPaths bus accessPoints b = Ok b' ->
  bootstrap_indexed b -> bootstrap_indexed b'.
Proof.
  revert b. induction accessPoints as [| path rest IH]; intros b Hbus Hrun Hb.
  - injection Hrun as <-. exact Hb.
  - simpl in Hrun. destruct (ap_properties bus path) as [raw |] eqn:Hraw;
      simpl in Hrun; [| discriminate].
    destruct (Hbus path raw) as [Hpath Haddress]; [left | exact Hraw |].
    destruct Hb as (Hrefs & Hagree & Hvalues).
    eapply IH; [| exact Hrun |].
    { intros q raw' Hq. apply Hbus. right. exact Hq. }
    split; [| split]; cbn.
    + intros q r Hq. rewrite List.length_app. cbn.
      apply lookup_insert_Some in Hq as [[<- <-] | [_ Hq]]; [split; [lia | exact Hpath] |].
      destruct (Hrefs q r Hq). split; [lia | assumption].
    + intros q r p Hq Hp.
      apply lookup_insert_Some in Hq as [[<- <-] | [Hne Hq]].
      * rewrite list_lookup_middle in Hp by reflexivity. injection Hp as <-.
        apply lookup_insert_eq.
      * destruct (Hrefs q r Hq) as [Hr Hslash].
        rewrite lookup_app_l in Hp by exact Hr.
        rewrite !lookup_insert_ne; [eauto | | exact Hne].
        apply not_eq_sym, slash_apart; assumption.
    + intros k v Hk Hslash.
      apply lookup_insert_Some in Hk as [[<- <-] | [_ Hk]]; [exact Haddress |].
      apply lookup_insert_Some in Hk as [[<- <-] | [_ Hk]]; [cbn in Hslash; congruence |].
      eapply Hvalues; eassumption.
Qed.

Lemma listenForBss_frame : preserves bss_frame _listenForBss.
Proof.
  pose proof bss_frame_refl. pose proof bss_frame_trans.
  unfold _listenForBss, _listenForBssPropertyChanges, listenSignal.
  walk ltac:(repeat split).
Qed.

Lemma new_WifiDevice_indexed (b : Bootstrap) :
  bootstrap_indexed b ->
  let device :=
    new_WifiDevice (initialObjects b) (initialAccessPoints b) (initialBssPathMap b)
      (initialAccessPointPathMap b) (initialBssInterfaces b) in
  well_formed device /\ paths_apart device /\ index_agrees device.
Proof.
  intros (Hrefs & Hagree & Hvalues). cbv zeta.
  destruct (new_WifiDevice_registry (initialObjects b) (initialAccessPoints b)
              (initialBssPathMap b) (initialAccessPointPathMap b)
              (initialBssInterfaces b)) as [Hcurrent Hrecords].
  unfold new_WifiDevice in *.
  match goal with |- context [(_listenForBss ?d0).2] =>
    destruct (listenForBss_frame d0) as (((Hc & _ & Hm) & _) & Hi);
    set (device := (_listenForBss d0).2) in *
  end.
  cbn in Hc, Hm, Hi.
  split; [| split].
  - split; [rewrite Hc, Hm; cbn; lia |].
    intros m q r Hin Hq. rewrite Hm in Hin. apply list_elem_of_singleton in Hin.
    subst m. rewrite Hrecords. apply (Hrefs q r Hq).
  - split.
    + intros q [r Hq]. rewrite Hcurrent in Hq. apply (Hrefs q r Hq).
    + rewrite Hi. exact Hvalues.
  - apply (proj2 (index_agrees_alt device)). intros q r p.
    rewrite Hcurrent, Hrecords, Hi. apply Hagree.
Qed.

(** X22: when the listed access points have object paths (beginning with
    a slash) and hardware addresses that are not, the device [init]
    returns has every record of its snapshot indexed under its path by its
    own hardware address, and keeps it so through every sequence of
    events that name object paths and identities that are not. *)
Theorem init_indexes_registry (bus : Bus) (device : WifiDevice) (evs : list Event) :
  (forall accessPoints q raw,
     base_init bus = Ok accessPoints -> q ∈ accessPoints ->
     ap_properties bus q = Ok raw ->
     startsWithSlash q = true /\ startsWithSlash (raw_HwAddress raw) = false) ->
  init bus = Ok device ->
  Forall separates evs ->
  forall q p,
    snapshotAt (run device evs) (accessPoints (run device evs)) !! q = Some p ->
    _accessPointPathMap (run device evs) !! q = Some (HwAddress p).
Proof.
  intros Hbus Hinit Hevs.
  unfold init, init_try, and_then in Hinit.
  destruct (base_init bus) as [accessPoints |] eqn:Hbase; [| discriminate].
  destruct (wpa_interface bus); [| discriminate].
  destruct (wpa_BSSs bus) as [bss |]; [| discriminate].
  destruct (getBSSs bus bss emptyBootstrap) as [b |] eqn:Hphase1; [| discriminate].
  destruct (getAccessPointDataFromPaths bus accessPoints b) as [b' |] eqn:Hphase2;
    [| discriminate].
  injection Hinit as <-.
  destruct (getBSSs_access_point_side _ _ _ _ Hphase1) as (Hm & Ho & Hi).
  assert (bootstrap_indexed b) as Hb.
  { unfold bootstrap_indexed. rewrite Hm, Ho, Hi. unfold emptyBootstrap.
    cbn [initialAccessPoints initialObjects initialAccessPointPathMap].
    split; [| split].
    - intros q r Hq. rewrite lookup_empty in Hq. discriminate.
    - intros q r p Hq. rewrite lookup_empty in Hq. discriminate.
    - intros k v Hk. rewrite lookup_empty in Hk. discriminate. }
  pose proof (getAccessPointDataFromPaths_indexed bus accessPoints b b'
                (fun q raw => Hbus accessPoints q raw eq_refl) Hphase2 Hb) as Hb'.
  destruct (new_WifiDevice_indexed b' Hb') as (Hwf & Hapart & Hagree).
  apply run_index_invariants; assumption.
Qed.

Lemma init_indexes_registry_witness :
  _accessPointPathMap
    (run Scenario.device
       [BSSRemoved "/bss/1";
        PropertiesChanged 0 Scenario.ageAndFrequency (Ok "100.25 17.3")])
    !! "/ap/1"
  = Some "AA:BB:CC:DD:EE:FF".
Proof.
  refine (init_indexes_registry Scenario.bus Scenario.device _ _ _ _
            "/ap/1" (decodeSsid Scenario.home) _).
  - intros accessPoints q raw [= <-] Hq.
    apply list_elem_of_singleton in Hq. subst q. intros [= <-]. split; reflexivity.
  - vm_compute. reflexivity.
  - repeat constructor.
  - vm_compute. reflexivity.
Defined.

End BootstrapIndex.
